(** * NASA OPeNDAP tutorial notebooks: Earthdata login and PyDAP over DAP4

    A shallow embedding of the code cells of the two notebooks and the
    properties the design notes state about them.

    - [PyStr]         : the [str] methods the URL cell uses ([find], [replace]).
    - [Url]           : the URL-construction cell ([dap4_url]).
    - [F64], [F32]    : Python floats and numpy float32 scalars, as instances
                        of the IEEE-754 model of [SpecFloat].
    - [Np]            : ndarrays and the operations the cells apply to them.
    - [Sst]           : the masking and scaling of the sea-surface temperature.
    - [Notebook]      : programs over the calls a cell issues, run against an
                        environment that answers them, with a log of the calls.
    - [LoginNotebook],
      [PydapNotebook] : the cells of the two notebooks, top to bottom.
    - [Env]           : environments to run them in.
    - [F32Value],
      [Pixel]         : the number a float32 holds; one element through the
                        cells.
    - [Transcript]    : the calls of a run together with their answers.
    - [Dodsrc]        : the files of a machine and the set-up script.

    The properties follow the definitions. *)

From Stdlib Require Import ZArith List String Ascii Bool Lia.
From Stdlib Require Import SpecFloat.
Import ListNotations.

Local Open Scope string_scope.
Local Open Scope Z_scope.

(* ================================================================== *)
(** ** Python [str]: [find] and [replace] *)

Module PyStr.

(** [s[n:]] *)
Fixpoint drop (n : nat) (s : string) : string :=
  match n, s with
  | O, _ => s
  | S _, EmptyString => EmptyString
  | S n', String _ s' => drop n' s'
  end.

(** [s.startswith(p)] *)
Definition startswith (s p : string) : bool := prefix p s.
#[global] Arguments startswith : simpl never.

(** [s.find(sub)]: the lowest index at which [sub] occurs in [s],
    [-1] when it does not occur. *)
Fixpoint find_from (s sub : string) (i : Z) : Z :=
  if startswith s sub then i
  else match s with
       | EmptyString => -1
       | String _ s' => find_from s' sub (i + 1)
       end.

Definition find (s sub : string) : Z := find_from s sub 0.

(** [sub in s] *)
Definition contains (s sub : string) : bool := 0 <=? find s sub.

(** [s.partition(old)] without the separator: the text before and the
    text after the leftmost occurrence of [old]. *)
Fixpoint split_first (s old : string) : option (string * string) :=
  if startswith s old then Some (EmptyString, drop (String.length old) s)
  else match s with
       | EmptyString => None
       | String c s' =>
           match split_first s' old with
           | Some (pre, post) => Some (String c pre, post)
           | None => None
           end
       end.

(** [s.replace(old, new, count)] for a non-negative [count]: the leftmost
    [count] non-overlapping occurrences of [old] are replaced, scanning
    from the left.  (For an empty [old] Python inserts [new] between
    characters; this definition agrees with it up to [count = 1], and the
    notebook only ever passes the non-empty patterns below.) *)
Fixpoint replace (s old new : string) (count : nat) : string :=
  match count with
  | O => s
  | S n =>
      match split_first s old with
      | None => s
      | Some (pre, post) => pre ++ new ++ replace post old new n
      end
  end.

End PyStr.

(* ================================================================== *)
(** ** The URL-construction cell

<<
if dataset_url.find("https") == 0 :
    dap4_url=dataset_url.replace("https://","dap4://",1)
else :
    dap4_url=dataset_url.replace("http://","dap4://",1)
>> *)

Module Url.
Import PyStr.

Definition dap4_url (dataset_url : string) : string :=
  if find dataset_url "https" =? 0
  then replace dataset_url "https://" "dap4://" 1
  else replace dataset_url "http://" "dap4://" 1.

(** The two literals of the cell that assigns [dataset_url]. *)
Definition original_service_url : string :=
  "dap4://opendap.earthdata.nasa.gov/collections/C2036877806-POCLOUD/granules/20220812010000-OSISAF-L3C_GHRSST-SSTsubskin-GOES16-ssteqc_goes16_20220812_010000-v02.0-fv01.0".

Definition test_service_url : string :=
  "dap4://test.opendap.org/opendap/tutorials/20220812010000-OSISAF-L3C_GHRSST-SSTsubskin-GOES16-ssteqc_goes16_20220812_010000-v02.0-fv01.0.nc".

(** The scheme text the cell looks for in [v]. *)
Definition scheme_sought (v : string) : string :=
  if startswith v "https" then "https://" else "http://".

(** The words of the design notes, as relations on strings. *)

(** [u] begins with [p]. *)
Definition begins_with (u p : string) : Prop := exists t, u = p ++ t.

(** [old] occurs in [u] after the prefix [pre]. *)
Definition occurs_after (u old pre : string) : Prop :=
  exists post, u = pre ++ old ++ post.

(** [r] is [u] with only its first occurrence of [old] replaced by [new],
    the text around it unchanged; [u] itself when [old] does not occur. *)
Definition first_replaced (u old new r : string) : Prop :=
  (r = u /\ forall pre, ~ occurs_after u old pre)
  \/ exists pre post,
       u = pre ++ old ++ post
       /\ r = pre ++ new ++ post
       /\ forall pre', occurs_after u old pre' ->
                       (String.length pre <= String.length pre')%nat.

End Url.

(* ================================================================== *)
(** ** Floating-point scalars

  Python's [float] is IEEE-754 binary64 and numpy's [float32] is binary32;
  both are instances of the parameterised model of [SpecFloat]. *)

Module F64.
Definition prec : Z := 53.
Definition emax : Z := 1024.

(** The value of a decimal literal [num / den] of the source text: Python
    reads a literal as the binary64 number nearest to it. *)
Definition literal (num den : Z) : spec_float :=
  let '(q, e, l) := SFdiv_core_binary prec emax num 0 den 0 in
  binary_round_aux prec emax false q e l.

(** [x] is a normal binary64 number less than half a unit in the last
    place away from [num / den]. *)
Definition nearest (num den : Z) (x : spec_float) : bool :=
  match x with
  | S754_finite false m e =>
      (2 ^ 52 <=? Zpos m) && (Zpos m <? 2 ^ 53) && (e <? 0)
      && (2 * Z.abs (Zpos m * den - num * 2 ^ (- e)) <? den)
  | _ => false
  end.
End F64.

Module F32.
Definition prec : Z := 24.
Definition emax : Z := 128.

Definition float32 : Type := spec_float.

(** [np.nan] stored into a float32 array *)
Definition nan : float32 := S754_nan.

(** [np.isnan] *)
Definition isnan (x : float32) : bool :=
  match x with S754_nan => true | _ => false end.

(** An integer scalar converted to float32 (round to nearest even). *)
Definition of_int (z : Z) : float32 := binary_normalize prec emax z 0 false.

(** A floating-point scalar of any width converted to float32. *)
Definition of_float (x : spec_float) : float32 :=
  match x with
  | S754_finite s m e => binary_round prec emax s m e
  | _ => x
  end.

Definition mul : float32 -> float32 -> float32 := SFmul prec emax.
Definition add : float32 -> float32 -> float32 := SFadd prec emax.
Definition ltb : float32 -> float32 -> bool := SFltb.
Definition leb : float32 -> float32 -> bool := SFleb.
End F32.

(* ================================================================== *)
(** ** numpy arrays

  An [ndarray] is a shape and a flat row-major buffer, as in numpy. *)

Module Np.
Import F32.

Record ndarray (A : Type) : Type := mk_ndarray {
  shape : list Z;
  data : list A
}.
Arguments mk_ndarray {A} _ _.
Arguments shape {A} _.
Arguments data {A} _.

(** [a.size]: the number of elements the shape announces *)
Definition size {A} (a : ndarray A) : Z := fold_right Z.mul 1 (shape a).

(** The buffer holds exactly [a.size] elements. *)
Definition well_formed {A} (a : ndarray A) : bool :=
  forallb (fun d => 0 <=? d) (shape a)
  && (Z.of_nat (List.length (data a)) =? size a).

(** One index against an axis of length [d]: negative indices count from
    the end, anything outside [-d, d) is an [IndexError] ([None]). *)
Definition norm_index (d i : Z) : option Z :=
  if (0 <=? i) && (i <? d) then Some i
  else if (- d <=? i) && (i <? 0) then Some (i + d)
  else None.

(** Row-major offset of a full index. *)
Fixpoint ravel (sh : list Z) (idx : list Z) (acc : Z) : option Z :=
  match sh, idx with
  | [], [] => Some acc
  | d :: sh', i :: idx' =>
      match norm_index d i with
      | Some i' => ravel sh' idx' (acc * d + i')
      | None => None
      end
  | _, _ => None
  end.

(** [a[i0][i1]...[ik]] down to a scalar; [None] is an [IndexError]. *)
Definition getitem {A} (a : ndarray A) (idx : list Z) : option A :=
  match ravel (shape a) idx 0 with
  | Some off => nth_error (data a) (Z.to_nat off)
  | None => None
  end.

(** [np.squeeze(a)]: every axis of length one is dropped, the buffer is
    shared. *)
Definition squeeze {A} (a : ndarray A) : ndarray A :=
  mk_ndarray (filter (fun d => negb (d =? 1)) (shape a)) (data a).

(** An elementwise operation (a ufunc with a scalar operand). *)
Definition elementwise {A B} (f : A -> B) (a : ndarray A) : ndarray B :=
  mk_ndarray (shape a) (map f (data a)).

(** What a remote variable holds: integer or floating-point scalars. *)
Inductive scalar : Type :=
| SInt (z : Z)
| SFloat (x : spec_float).

(** [a[:]]: the whole array, sliced along its first axis.  An array
    without an axis has nothing to slice: an [IndexError] ([None]). *)
Definition slice_all {A} (a : ndarray A) : option (ndarray A) :=
  match shape a with
  | [] => None
  | _ :: _ => Some a
  end.

(** [a.astype(np.float32)] *)
Definition astype_float32 (a : ndarray scalar) : ndarray float32 :=
  elementwise (fun v => match v with
                        | SInt z => of_int z
                        | SFloat x => of_float x
                        end) a.

(** [a[:].astype(np.float32)]; [None] is the [IndexError] of [a[:]]. *)
Definition slice_astype_float32 (a : ndarray scalar)
  : option (ndarray float32) :=
  option_map astype_float32 (slice_all a).

(** [a[a < c] = v] with a Python integer [c]: the comparison is made in
    the array's type, and an element compares less only if it is no NaN. *)
Definition setitem_where_lt (a : ndarray float32) (c : Z) (v : float32)
  : ndarray float32 :=
  elementwise (fun x => if ltb x (of_int c) then v else x) a.

(** [a * c] and [a + c] with a Python float [c], for an array [a] with at
    least one axis: the scalar is taken to the array's type, the result is
    a fresh float32 array.  (Of an array without an axis numpy makes a
    scalar, whose result type depends on the numpy version; the cells only
    scale what [a[:]] has accepted.) *)
Definition mul_scalar (a : ndarray float32) (c : spec_float)
  : ndarray float32 :=
  elementwise (fun x => mul x (of_float c)) a.

Definition add_scalar (a : ndarray float32) (c : spec_float)
  : ndarray float32 :=
  elementwise (fun x => add x (of_float c)) a.

End Np.

(* ================================================================== *)
(** ** The slicing and scaling cells

<<
sst = np.squeeze(sst)
sst = sst[:].astype(np.float32)
sst[sst < -32000] = np.nan
...
scaled_sst = sst * 0.01 + 273.14999999999998
>> *)

Module Sst.
Import F32 Np.

(** The literals [0.01] and [273.14999999999998]. *)
Definition scale_factor : spec_float := F64.literal 1 100.
Definition add_offset : spec_float :=
  F64.literal 27314999999999998 100000000000000.

(** The threshold and the [_FillValue] attribute of the variable. *)
Definition fill_threshold : Z := -32000.
Definition FillValue : Z := -32768.

(** The threshold, as the comparison sees it. *)
Definition threshold32 : float32 := of_int fill_threshold.

(** The two coefficients, as the float32 array sees them. *)
Definition scale_factor32 : float32 := of_float scale_factor.
Definition add_offset32 : float32 := of_float add_offset.

(** [f] holds of the [n] integers from [z] on. *)
Fixpoint holds_from (f : Z -> bool) (z : Z) (n : nat) : bool :=
  match n with
  | O => true
  | S n' => f z && holds_from f (z + 1) n'
  end.

Definition mask_fill (sst : ndarray float32) : ndarray float32 :=
  setitem_where_lt sst fill_threshold nan.

(** What the squeeze cell leaves in [sst] when it completes. *)
Definition prepare (sst : ndarray scalar) : ndarray float32 :=
  mask_fill (astype_float32 (squeeze sst)).

(** The squeeze cell with its error: [None] is the [IndexError] that
    [sst[:]] raises when the squeeze has left no axis. *)
Definition prepare_cell (sst : ndarray scalar) : option (ndarray float32) :=
  option_map mask_fill (slice_astype_float32 (squeeze sst)).

(** The scaling cell, on an array with at least one axis. *)
Definition scaled_sst (sst : ndarray float32) : ndarray float32 :=
  add_scalar (mul_scalar sst scale_factor) add_offset.

End Sst.

(* ================================================================== *)
(** ** Notebook cells as programs

  A cell is a program over the calls it issues.  Calls that leave the
  Python process (a shell command, an import, the Earthdata login, the
  OPeNDAP client, the display and plotting libraries) are answered by the
  environment; calls into numpy are answered by [Np], [IndexError]
  included. *)

Module Notebook.
Import F32 Np.

(** A reference to an object that a library owns. *)
Definition pyobj : Type := N.

(** A raised exception, as a notebook records it. *)
Record exn : Type := mk_exn { ename : string; evalue : string }.

(** What [a[:]] raises on an array without an axis. *)
Definition index_error : exn :=
  mk_exn "IndexError"
         "too many indices for array: array is 0-dimensional, but 1 were indexed".

(** numpy's answer to [a[:].astype(np.float32)]. *)
Definition astype_answer (a : ndarray scalar) : exn + ndarray float32 :=
  match slice_astype_float32 a with
  | Some b => inr b
  | None => inl index_error
  end.

Inductive lib : Type := Earthaccess | Pydap | IPython | Matplotlib | Cartopy.

(** Arguments handed to [print], to the display and to library calls. *)
#[warnings="-register-all"]
Inductive value : Type :=
| VStr (s : string)
| VInt (z : Z)
| VFloat (x : spec_float)
| VBool (b : bool)
| VObj (o : pyobj)
| VShape (sh : list Z)
| VArr (a : ndarray scalar)
| VArr32 (a : ndarray float32)
| VTuple (vs : list value)
| VKw (k : string) (v : value).

Inductive call : Type -> Type :=
(* IPython and builtins *)
| shell (cmd : string) : call unit
| import (module : string) : call unit
| print (args : list value) : call unit
| display (v : value) : call unit
| file_write (path text : string) : call unit
(* earthaccess and pydap *)
| earthaccess_login (strategy : string) (persist : bool) : call pyobj
| open_url (url : string) : call pyobj
| getattr (o : pyobj) (name : string) : call pyobj
| getattr_str (o : pyobj) (name : string) : call string
| var_shape (v : pyobj) : call (list Z)
| var_data (v : pyobj) : call (ndarray scalar)
(* display and plotting libraries *)
| lib_attr (l : lib) (name : string) : call pyobj
| lib_call (l : lib) (fn : string) (args : list value) : call pyobj
(* numpy *)
| np_squeeze (a : ndarray scalar) : call (ndarray scalar)
| np_astype_float32 (a : ndarray scalar) : call (ndarray float32)
| np_setitem_where_lt (a : ndarray float32) (c : Z) (v : float32)
  : call (ndarray float32)
| np_mul_scalar (a : ndarray float32) (c : spec_float)
  : call (ndarray float32)
| np_add_scalar (a : ndarray float32) (c : spec_float)
  : call (ndarray float32).

(** Programs: a call with its continuation, and Python's [try]/[except]. *)
Inductive prog (R : Type) : Type :=
| Ret (r : R)
| Call {X : Type} (c : call X) (k : X -> prog R)
| Try {X : Type} (body : prog X) (except : exn -> prog X) (k : X -> prog R).
Arguments Ret {R} _.
Arguments Call {R X} _ _.
Arguments Try {R X} _ _ _.

Fixpoint bind {A B : Type} (p : prog A) (f : A -> prog B) : prog B :=
  match p with
  | Ret a => f a
  | Call c k => Call c (fun x => bind (k x) f)
  | Try body except k => Try body except (fun x => bind (k x) f)
  end.

Definition perform {X : Type} (c : call X) : prog X := Call c Ret.

Declare Scope prog_scope.
Delimit Scope prog_scope with prog.
Notation "x <- p ;; q" := (bind p (fun x => q))
  (at level 61, p at next level, right associativity) : prog_scope.
Notation "p ;; q" := (bind p (fun _ => q))
  (at level 61, right associativity) : prog_scope.
Local Open Scope prog_scope.

(** *** Running a program *)

Inductive label : Type :=
| Label : forall {X : Type}, call X -> label.

(** One line of the log: the call, and the exception if it raised. *)
Record entry : Type := mk_entry { issued : label; raised : option exn }.

Section Run.
(** The environment: its state and its answer to every call. *)
Variable World : Type.
Variable env : forall X : Type, call X -> World -> (exn + X) * World.

Definition answer {X : Type} (c : call X) (w : World) : (exn + X) * World :=
  match c in call T return (exn + T) * World -> (exn + T) * World with
  | np_squeeze a => fun _ => (inr (squeeze a), w)
  | np_astype_float32 a => fun _ => (astype_answer a, w)
  | np_setitem_where_lt a c v => fun _ => (inr (setitem_where_lt a c v), w)
  | np_mul_scalar a c => fun _ => (inr (mul_scalar a c), w)
  | np_add_scalar a c => fun _ => (inr (add_scalar a c), w)
  | _ => fun r => r
  end (env X c w).

Fixpoint run {R : Type} (p : prog R) (w : World)
  : (exn + R) * World * list entry :=
  match p with
  | Ret r => (inr r, w, [])
  | Call c k =>
      match answer c w with
      | (inl e, w') => (inl e, w', [mk_entry (Label c) (Some e)])
      | (inr x, w') =>
          let '(r, w'', t) := run (k x) w' in
          (r, w'', mk_entry (Label c) None :: t)
      end
  | Try body except k =>
      match run body w with
      | (inr x, w', t) =>
          let '(r, w'', t') := run (k x) w' in (r, w'', (t ++ t')%list)
      | (inl e, w', t) =>
          match run (except e) w' with
          | (inr x, w'', t') =>
              let '(r, w3, t'') := run (k x) w'' in (r, w3, (t ++ t' ++ t'')%list)
          | (inl e', w'', t') => (inl e', w'', (t ++ t')%list)
          end
      end
  end.

(** A log read against the environment: every entry is the call made
    in the state the previous entries left, with the answer it got; an
    entry that raised is the last one. *)
Inductive replays : World -> list entry -> World -> Prop :=
| replays_done (w : World) : replays w [] w
| replays_returned {X : Type} (c : call X) (x : X) (w w' w'' : World)
                   (t : list entry) :
    answer c w = (inr x, w') ->
    replays w' t w'' ->
    replays w (mk_entry (Label c) None :: t) w''
| replays_raised {X : Type} (c : call X) (e : exn) (w w' : World) :
    answer c w = (inl e, w') ->
    replays w [mk_entry (Label c) (Some e)] w'.

Definition outcome {R : Type} (p : prog R) (w : World) : exn + R :=
  fst (fst (run p w)).
Definition final {R : Type} (p : prog R) (w : World) : World :=
  snd (fst (run p w)).
Definition trace {R : Type} (p : prog R) (w : World) : list entry :=
  snd (run p w).
End Run.

(** Straight-line programs: no [try] anywhere, and every call that can
    be reached satisfies [P]. *)
Inductive all_calls {R : Type} (P : label -> Prop) : prog R -> Prop :=
| all_ret (r : R) : all_calls P (Ret r)
| all_call {X : Type} (c : call X) (k : X -> prog R) :
    P (Label c) -> (forall x, all_calls P (k x)) -> all_calls P (Call c k).

Definition try_free {R : Type} (p : prog R) : Prop :=
  all_calls (fun _ => True) p.

Definition returned (e : entry) : Prop := raised e = None.

(** *** The steps of the walkthrough *)

Inductive step : Type := Login | Open | Slice | Scale | Plot.

Definition rank (s : step) : nat :=
  match s with Login => 0 | Open => 1 | Slice => 2 | Scale => 3 | Plot => 4 end.

Definition is_plot_lib (l : lib) : bool :=
  match l with Matplotlib | Cartopy => true | _ => false end.

Definition step_of {X : Type} (c : call X) : option step :=
  match c with
  | earthaccess_login _ _ => Some Login
  | open_url _ => Some Open
  | var_data _ => Some Slice
  | np_mul_scalar _ _ | np_add_scalar _ _ => Some Scale
  | lib_attr l _ | lib_call l _ _ => if is_plot_lib l then Some Plot else None
  | _ => None
  end.

Definition step_of_entry (e : entry) : option step :=
  match issued e with Label c => step_of c end.

Fixpoint steps (t : list entry) : list step :=
  match t with
  | [] => []
  | e :: t' =>
      match step_of_entry e with
      | Some s => s :: steps t'
      | None => steps t'
      end
  end.

(** The ranks never go down, and start at [lo] at least. *)
Fixpoint nondecreasing_from (lo : nat) (l : list step) : bool :=
  match l with
  | [] => true
  | s :: l' => (lo <=? rank s)%nat && nondecreasing_from (rank s) l'
  end.

(** Nothing in the list comes before something of a lower rank. *)
Definition in_order (l : list step) : Prop :=
  forall l1 a l2 b l3,
    l = (l1 ++ a :: l2 ++ b :: l3)%list -> (rank a <= rank b)%nat.

(** [p] goes through the steps [l], one after the other, whatever the
    calls return. *)
Inductive follows {R : Type} : prog R -> list step -> Prop :=
| follows_ret (r : R) : follows (Ret r) []
| follows_other {X : Type} (c : call X) (k : X -> prog R) (l : list step) :
    step_of c = None -> (forall x, follows (k x) l) -> follows (Call c k) l
| follows_step {X : Type} (c : call X) (k : X -> prog R)
               (s : step) (l : list step) :
    step_of c = Some s -> (forall x, follows (k x) l) ->
    follows (Call c k) (s :: l).

(** Errors pass through [p]: there is no [try] in it, its log replays
    against the environment, and its run ends in the exception [e]
    exactly when the last call of the log raised [e], every call before
    it having returned. *)
Definition propagates (World : Type)
           (env : forall X : Type, call X -> World -> (exn + X) * World)
           (p : prog unit) (w : World) : Prop :=
  try_free p
  /\ replays World env w (trace World env p w) (final World env p w)
  /\ forall e,
       outcome World env p w = inl e
       <-> exists l t0,
             trace World env p w = (t0 ++ [mk_entry l (Some e)])%list
             /\ Forall returned t0.


(** What a call, made in state [w], does to the log and to the state. *)
Definition logged {World : Type}
           (env : forall X : Type, call X -> World -> (exn + X) * World)
           {X : Type} (c : call X) (w : World) : list entry :=
  [mk_entry (Label c)
     (match fst (answer World env c w) with
      | inl e => Some e
      | inr _ => None
      end)].

End Notebook.

(* ================================================================== *)
(** ** The Earthdata-Login notebook *)

Module LoginNotebook.
Import Notebook.
Local Open Scope prog_scope.

Definition dquote : string := String (Ascii.ascii_of_nat 34) EmptyString.

(** <<
import earthaccess
auth = earthaccess.login(strategy="interactive", persist=True)
>> *)
Definition cell_login : prog pyobj :=
  perform (import "earthaccess") ;;
  perform (earthaccess_login "interactive" true).

(** <<
!./setup_dodsrc.sh
>> *)
Definition setup_dodsrc : string := "./setup_dodsrc.sh".

Definition cell_dodsrc : prog unit :=
  perform (shell setup_dodsrc).

(** <<
import IPython

def window_open(url):
    IPython.display.display(IPython.display.Javascript('window.open("{url}");'.format(url=url)))
>> *)
Definition cell_def_window_open : prog unit :=
  perform (import "IPython").

Definition window_open (url : string) : prog unit :=
  js <- perform (lib_call IPython "display.Javascript"
                   [VStr ("window.open(" ++ dquote ++ url ++ dquote ++ ");")]) ;;
  perform (lib_call IPython "display.display" [VObj js]) ;;
  Ret tt.

(** <<
window_open(f"https://urs.earthdata.nasa.gov/users/{auth.username}/authorized_apps")
>> *)
Definition cell_approve (auth : pyobj) : prog unit :=
  username <- perform (getattr_str auth "username") ;;
  window_open ("https://urs.earthdata.nasa.gov/users/" ++ username
               ++ "/authorized_apps").

Definition notebook : prog unit :=
  auth <- cell_login ;;
  cell_dodsrc ;;
  cell_def_window_open ;;
  cell_approve auth.

End LoginNotebook.

(* ================================================================== *)
(** ** The PyDAP / DAP4 notebook *)

Module PydapNotebook.
Import F32 Np Notebook.
Local Open Scope prog_scope.

Definition newline : string := String (Ascii.ascii_of_nat 10) EmptyString.

(** The first cell: the Colab set-up. *)
Definition cell_setup : prog unit :=
  perform (shell "git clone https://github.com/OPENDAP/NASA-tutorials.git") ;;
  perform (shell "pip3 install earthaccess pydap") ;;
  perform (shell "./NASA-tutorials/tutorials/setup_dodsrc.sh").

Definition cell_imports : prog unit :=
  perform (import "requests") ;;
  perform (import "pydap.client") ;;
  perform (import "pydap.cas.urs") ;;
  perform (import "numpy") ;;
  perform (import "IPython.display").

Definition cell_login : prog pyobj :=
  perform (import "earthaccess") ;;
  perform (earthaccess_login "interactive" true).

Definition USE_ORIGINAL_SERVICE : bool := true.

Definition cell_dataset_url : prog string :=
  let dataset_url :=
    if USE_ORIGINAL_SERVICE then Url.original_service_url
    else Url.test_service_url in
  perform (print [VStr "dataset_url: "; VStr dataset_url]) ;;
  Ret dataset_url.

Definition cell_dap4_url (dataset_url : string) : prog string :=
  let dap4_url := Url.dap4_url dataset_url in
  perform (print [VStr "dap4_url: "; VStr dap4_url]) ;;
  Ret dap4_url.

(** <<
pydap_ds = open_url(dap4_url)

pydap_ds._dict
>> *)
Definition cell_open_url (dap4_url : string) : prog pyobj :=
  pydap_ds <- perform (open_url dap4_url) ;;
  d <- perform (getattr pydap_ds "_dict") ;;
  perform (display (VObj d)) ;;
  Ret pydap_ds.

Definition cell_print_ds (pydap_ds : pyobj) : prog unit :=
  perform (print [VObj pydap_ds]).

(** [print(name, pydap_ds.<name>.shape, ...)] *)
Definition print_shape (pydap_ds : pyobj) (name : string)
           (rest : list value) : prog unit :=
  v <- perform (getattr pydap_ds name) ;;
  sh <- perform (var_shape v) ;;
  perform (print (VStr name :: VShape sh :: rest)).

Definition cell_shapes (pydap_ds : pyobj) : prog unit :=
  perform (print [VStr "Domain Coordinates"]) ;;
  print_shape pydap_ds "time" [] ;;
  print_shape pydap_ds "lat" [] ;;
  print_shape pydap_ds "lon" [VStr newline] ;;
  perform (print [VStr "Range Variables"]) ;;
  print_shape pydap_ds "sea_surface_temperature" [] ;;
  print_shape pydap_ds "wind_speed" [].

(** [pydap_ds.<name>.data[:]] *)
Definition read_all (pydap_ds : pyobj) (name : string)
  : prog (ndarray scalar) :=
  v <- perform (getattr pydap_ds name) ;;
  perform (var_data v).

Definition cell_time (pydap_ds : pyobj) : prog (ndarray scalar) :=
  time <- read_all pydap_ds "time" ;;
  perform (print [VStr "time"; VShape (shape time); VArr time;
                  VStr newline]) ;;
  Ret time.

Definition cell_lat (pydap_ds : pyobj) : prog (ndarray scalar) :=
  lat <- read_all pydap_ds "lat" ;;
  perform (print [VStr "lat"; VShape (shape lat); VStr ": "; VArr lat;
                  VStr newline]) ;;
  Ret lat.

Definition cell_lon (pydap_ds : pyobj) : prog (ndarray scalar) :=
  lon <- read_all pydap_ds "lon" ;;
  perform (print [VStr "lon"; VShape (shape lon); VStr newline]) ;;
  perform (print [VArr lon; VStr newline]) ;;
  Ret lon.

Definition cell_sst (pydap_ds : pyobj) : prog (ndarray scalar) :=
  sst <- read_all pydap_ds "sea_surface_temperature" ;;
  perform (print [VArr sst]) ;;
  Ret sst.

(** <<
print("Before Squeeze, sst.shape",sst.shape)
sst = np.squeeze(sst)
print("After Squeeze, sst.shape",sst.shape)
sst = sst[:].astype(np.float32)
sst[sst < -32000] = np.nan
>> *)
Definition cell_squeeze (sst : ndarray scalar) : prog (ndarray float32) :=
  perform (print [VStr "Before Squeeze, sst.shape"; VShape (shape sst)]) ;;
  sst <- perform (np_squeeze sst) ;;
  perform (print [VStr "After Squeeze, sst.shape"; VShape (shape sst)]) ;;
  sst <- perform (np_astype_float32 sst) ;;
  perform (np_setitem_where_lt sst Sst.fill_threshold nan).

Definition cell_attributes (pydap_ds : pyobj) (sst : ndarray float32)
  : prog unit :=
  perform (print [VArr32 sst]) ;;
  v <- perform (getattr pydap_ds "sea_surface_temperature") ;;
  a <- perform (getattr v "attributes") ;;
  perform (display (VObj a)).

(** <<
scaled_sst = sst * 0.01 + 273.14999999999998
print(scaled_sst)
>> *)
Definition cell_scale (sst : ndarray float32) : prog (ndarray float32) :=
  m <- perform (np_mul_scalar sst Sst.scale_factor) ;;
  scaled_sst <- perform (np_add_scalar m Sst.add_offset) ;;
  perform (print [VArr32 scaled_sst]) ;;
  Ret scaled_sst.

(** <<
import matplotlib.pyplot as plt

plt.pcolormesh(lat, lon, scaled_sst)
>> *)
Definition cell_plot (lat lon : ndarray scalar)
           (scaled_sst : ndarray float32) : prog unit :=
  perform (import "matplotlib.pyplot") ;;
  m <- perform (lib_call Matplotlib "pyplot.pcolormesh"
                  [VArr lat; VArr lon; VArr32 scaled_sst]) ;;
  perform (display (VObj m)).

(** [ax.add_feature(cfeature.<name>, **kw)] *)
Definition add_feature (ax : pyobj) (feature : pyobj) (kw : list value)
  : prog unit :=
  perform (lib_call Cartopy "GeoAxes.add_feature"
             (VObj ax :: VObj feature :: kw)) ;;
  Ret tt.

Definition half : spec_float := F64.literal 1 2.

(** The last cell: the map drawn with cartopy. *)
Definition cell_map (lat lon : ndarray scalar)
           (scaled_sst : ndarray float32) : prog unit :=
  perform (shell "pip3 install shapely==1.7.1") ;;
  perform (shell "pip3 install cartopy") ;;
  perform (import "cartopy.crs") ;;
  perform (import "cartopy.feature") ;;
  perform (import "matplotlib.pyplot") ;;
  perform (lib_call Matplotlib "pyplot.rcParams.__setitem__"
             [VStr "figure.figsize"; VTuple [VInt 15; VInt 15]]) ;;
  fig <- perform (lib_call Matplotlib "pyplot.figure" []) ;;
  mercator <- perform (lib_call Cartopy "crs.Mercator" []) ;;
  ax <- perform (lib_call Matplotlib "Figure.add_subplot"
                   [VObj fig; VInt 2; VInt 1; VInt 1;
                    VKw "projection" (VObj mercator)]) ;;
  crs <- perform (lib_call Cartopy "crs.PlateCarree" []) ;;
  perform (lib_call Cartopy "GeoAxes.set_extent"
             [VObj ax; VTuple [VInt (-135); VInt (-15); VInt (-60); VInt 60];
              VKw "crs" (VObj crs)]) ;;
  coastline <- perform (lib_attr Cartopy "feature.COASTLINE") ;;
  coastline <- perform (lib_call Cartopy "Feature.with_scale"
                          [VObj coastline; VStr "50m"]) ;;
  add_feature ax coastline [VKw "linewidth" (VFloat half); VKw "zorder" (VInt 5)] ;;
  land <- perform (lib_attr Cartopy "feature.LAND") ;;
  add_feature ax land [VKw "facecolor" (VStr "saddlebrown"); VKw "zorder" (VInt 2)] ;;
  borders <- perform (lib_attr Cartopy "feature.BORDERS") ;;
  add_feature ax borders [VKw "linewidth" (VFloat half); VKw "zorder" (VInt 5)] ;;
  states <- perform (lib_attr Cartopy "feature.STATES") ;;
  add_feature ax states [VKw "zorder" (VInt 5)] ;;
  perform (lib_call Cartopy "GeoAxes.gridlines"
             [VObj ax; VKw "draw_labels" (VBool true); VKw "dms" (VBool true);
              VKw "x_inline" (VBool false); VKw "y_inline" (VBool false)]) ;;
  transform <- perform (lib_call Cartopy "crs.PlateCarree" []) ;;
  pm <- perform (lib_call Cartopy "GeoAxes.pcolormesh"
                   [VObj ax; VArr lon; VArr lat; VArr32 scaled_sst;
                    VKw "cmap" (VStr "rainbow");
                    VKw "transform" (VObj transform)]) ;;
  cb <- perform (lib_call Matplotlib "pyplot.colorbar" [VObj pm]) ;;
  perform (lib_call Matplotlib "Colorbar.set_label"
             [VObj cb; VStr "degrees K"]) ;;
  perform (lib_call Cartopy "GeoAxes.set_title"
             [VObj ax; VStr "Sea Surface Temperature"]) ;;
  perform (lib_call Matplotlib "pyplot.show" []) ;;
  Ret tt.

(** The cells from top to bottom. *)
Definition notebook : prog unit :=
  cell_setup ;;
  cell_imports ;;
  auth <- cell_login ;;
  dataset_url <- cell_dataset_url ;;
  dap4_url <- cell_dap4_url dataset_url ;;
  pydap_ds <- cell_open_url dap4_url ;;
  cell_print_ds pydap_ds ;;
  cell_shapes pydap_ds ;;
  time <- cell_time pydap_ds ;;
  lat <- cell_lat pydap_ds ;;
  lon <- cell_lon pydap_ds ;;
  sst <- cell_sst pydap_ds ;;
  sst <- cell_squeeze sst ;;
  cell_attributes pydap_ds sst ;;
  scaled_sst <- cell_scale sst ;;
  cell_plot lat lon scaled_sst ;;
  cell_map lat lon scaled_sst.

(** The steps of a complete run, in the order of the cells. *)
Definition walkthrough : list step :=
  [Login; Open; Slice; Slice; Slice; Slice; Scale; Scale]
    ++ repeat Plot 23.

End PydapNotebook.

(* ================================================================== *)
(** ** Two environments to run the notebooks in *)

Module Env.
Import Np Notebook.

(** Every call succeeds; the state counts the object references handed
    out.  Every remote variable holds the same small array. *)
Definition sample : ndarray scalar :=
  mk_ndarray [1; 2; 2] [SInt (-32768); SInt 1513; SInt 1345; SInt (-32768)].

Definition fresh (X : Type) (c : call X) (w : N) : (exn + X) * N :=
  match c in call T return (exn + T) * N with
  | shell _ | import _ | print _ | display _ | file_write _ _ => (inr tt, w)
  | earthaccess_login _ _ | open_url _ | getattr _ _
  | lib_attr _ _ | lib_call _ _ _ => (inr w, N.succ w)
  | getattr_str _ _ => (inr "jhrg"%string, w)
  | var_shape _ => (inr (shape sample), w)
  | var_data _ => (inr sample, w)
  | np_squeeze a => (inr a, w)
  | np_astype_float32 _ | np_setitem_where_lt _ _ _
  | np_mul_scalar _ _ | np_add_scalar _ _ => (inr (mk_ndarray [] []), w)
  end.

(** As [fresh], but the server refuses to open the dataset. *)
Definition refused : exn :=
  mk_exn "HTTPError" "401 Unauthorized".

Definition unauthorized (X : Type) (c : call X) (w : N) : (exn + X) * N :=
  match c in call T return (exn + T) * N -> (exn + T) * N with
  | open_url _ => fun _ => (inl refused, w)
  | _ => fun r => r
  end (fresh X c w).

(** As [fresh], but every remote variable holds an array of its own: two
    elements made of the variable's reference. *)
Definition distinct (X : Type) (c : call X) (w : N) : (exn + X) * N :=
  match c in call T return (exn + T) * N -> (exn + T) * N with
  | var_data v =>
      fun _ => (inr (mk_ndarray [1; 2] [SInt (Z.of_N v); SInt (- Z.of_N v)]), w)
  | _ => fun r => r
  end (fresh X c w).

(** A program that is in neither notebook: the dataset is opened under
    a [try], and [None] stands in when that raises. *)
Definition open_or_none (url : string) : prog (option pyobj) :=
  Try (bind (perform (open_url url)) (fun ds => Ret (Some ds)))
      (fun _ => Ret None)
      (fun r => Ret r).

End Env.


(* ================================================================== *)
(** ** What a float32 element holds *)

Module F32Value.
Import F32.

(** [np.isfinite] *)
Definition isfinite (x : float32) : bool :=
  match x with
  | S754_zero _ | S754_finite _ _ _ => true
  | _ => false
  end.

(** [int(x)] for an [x] with [x.is_integer()]; [None] for every other
    float. *)
Definition to_int (x : float32) : option Z :=
  match x with
  | S754_zero _ => Some 0
  | S754_finite s m e =>
      if 0 <=? e then Some (cond_Zopp s (Zpos m * 2 ^ e))
      else if Zpos m mod 2 ^ (- e) =? 0
           then Some (cond_Zopp s (Zpos m / 2 ^ (- e)))
           else None
  | _ => None
  end.

(** The value of [x] is exactly [num / den] ([den] positive). *)
Definition is_ratio (x : float32) (num den : Z) : bool :=
  match x with
  | S754_zero _ => num =? 0
  | S754_finite s m e =>
      if 0 <=? e then cond_Zopp s (Zpos m * 2 ^ e) * den =? num
      else cond_Zopp s (Zpos m) * den =? num * 2 ^ (- e)
  | _ => false
  end.

(** [x] is a normal float32 number less than half a unit in the last
    place away from [num / den]: the float32 nearest to it. *)
Definition nearest (num den : Z) (x : float32) : bool :=
  match x with
  | S754_finite false m e =>
      (2 ^ 23 <=? Zpos m) && (Zpos m <? 2 ^ 24) && (e <? 0)
      && (2 * Z.abs (Zpos m * den - num * 2 ^ (- e)) <? den)
  | _ => false
  end.

End F32Value.

(* ================================================================== *)
(** ** One element through the cells *)

Module Pixel.
Import F32 Np Sst.

(** [astype(np.float32)] on one element *)
Definition convert (v : scalar) : float32 :=
  match v with
  | SInt z => of_int z
  | SFloat x => of_float x
  end.

(** [sst[sst < -32000] = np.nan] on one element *)
Definition mask (x : float32) : float32 :=
  if ltb x threshold32 then nan else x.

(** [sst * 0.01 + 273.14999999999998] on one element *)
Definition scale (x : float32) : float32 :=
  add (mul x scale_factor32) add_offset32.

(** A raw integer of the variable, as it reaches the plot. *)
Definition kelvin (z : Z) : float32 := scale (mask (of_int z)).

(** One pass over the 16-bit integers: the conversion is exact, the
    element that reaches the plot is a NaN below the threshold and finite
    from it on, and from the threshold on it grows with the raw value. *)
Definition int16_check (z : Z) : bool :=
  let y := kelvin z in
  let masked := z <? fill_threshold in
  match F32Value.to_int (of_int z) with
  | Some k => k =? z
  | None => false
  end
  && Bool.eqb (isnan y) masked
  && Bool.eqb (F32Value.isfinite y) (negb masked)
  && (masked || (32767 <=? z) || ltb y (kelvin (z + 1))).

(** The words of the design notes, read to the letter: wherever the
    array holds the integer [z], the scaled array holds the number
    [0.01 * z + 273.14999999999998], that is
    [(z * 10^12 + 27314999999999998) / 10^14]. *)
Definition holds_exactly (sst scaled : ndarray float32) : Prop :=
  forall idx x z,
    getitem sst idx = Some x ->
    F32Value.to_int x = Some z ->
    exists y,
      getitem scaled idx = Some y
      /\ F32Value.is_ratio y (z * 1000000000000 + 27314999999999998)
                           100000000000000 = true.

End Pixel.

(* ================================================================== *)
(** ** Transcripts: the calls of a run with their answers *)

Module Transcript.
Import Np Notebook.

(** A call together with the answer it got. *)
Inductive exchange : Type :=
| Exchange : forall {X : Type}, call X -> exn + X -> exchange.

Section Run.
Variable World : Type.
Variable env : forall X : Type, call X -> World -> (exn + X) * World.

Fixpoint transcript {R : Type} (p : prog R) (w : World) : list exchange :=
  match p with
  | Ret _ => []
  | Call c k =>
      match answer World env c w with
      | (inl e, _) => [Exchange c (inl e)]
      | (inr x, w') => Exchange c (inr x) :: transcript (k x) w'
      end
  | Try body except k =>
      (transcript body w
       ++ match run World env body w with
          | (inr x, w', _) => transcript (k x) w'
          | (inl e, w', _) =>
              transcript (except e) w'
              ++ match run World env (except e) w' with
                 | (inr x, w'', _) => transcript (k x) w''
                 | (inl _, _, _) => []
                 end
          end)%list
  end.
End Run.

(** The line of the log an exchange leaves. *)
Definition forget (ex : exchange) : entry :=
  match ex with
  | Exchange c r =>
      mk_entry (Label c) (match r with inl e => Some e | inr _ => None end)
  end.

(** The answers a call can get: numpy computes its own, everything else is
    up to the environment. *)
Definition possible {X : Type} (c : call X) : exn + X -> Prop :=
  match c in call T return exn + T -> Prop with
  | np_squeeze a => fun r => r = inr (squeeze a)
  | np_astype_float32 a => fun r => r = astype_answer a
  | np_setitem_where_lt a c v => fun r => r = inr (setitem_where_lt a c v)
  | np_mul_scalar a c => fun r => r = inr (mul_scalar a c)
  | np_add_scalar a c => fun r => r = inr (add_scalar a c)
  | _ => fun _ => True
  end.

(** Every exchange a straight-line program can make is justified by the
    exchanges made before it: [J h ex] reads "after the history [h], which
    ends with [ex], the exchange [ex] is in order". *)
Inductive justified {R : Type} (J : list exchange -> exchange -> Prop)
  : list exchange -> prog R -> Prop :=
| justified_ret (h : list exchange) (r : R) : justified J h (Ret r)
| justified_call {X : Type} (h : list exchange)
                 (c : call X) (k : X -> prog R) :
    (forall r, possible c r -> J (h ++ [Exchange c r])%list (Exchange c r)) ->
    (forall x, possible c (inr x) ->
               justified J (h ++ [Exchange c (inr x)])%list (k x)) ->
    justified J h (Call c k).

(** [J] keeps holding when the history grows. *)
Definition monotone (J : list exchange -> exchange -> Prop) : Prop :=
  forall h h' ex, J h ex -> J (h ++ h')%list ex.

(** *** What the theorems look at in an exchange *)

Definition javascript (ex : exchange) : option string :=
  match ex with
  | Exchange c _ =>
      match c with
      | lib_call IPython "display.Javascript" [VStr text] => Some text
      | _ => None
      end
  end.

Definition displayed (ex : exchange) : option pyobj :=
  match ex with
  | Exchange c _ =>
      match c with
      | lib_call IPython "display.display" [VObj js] => Some js
      | _ => None
      end
  end.

Definition opened (ex : exchange) : option string :=
  match ex with
  | Exchange c _ =>
      match c with
      | open_url url => Some url
      | _ => None
      end
  end.

Definition requested (ex : exchange) : option pyobj :=
  match ex with
  | Exchange c _ =>
      match c with
      | var_data v => Some v
      | _ => None
      end
  end.

Definition is_array (v : value) : bool :=
  match v with
  | VArr _ | VArr32 _ => true
  | _ => false
  end.

(** The arrays handed to a call of the plotting function [fn]. *)
Definition plotted_by (fn : string) (ex : exchange) : option (list value) :=
  match ex with
  | Exchange c _ =>
      match c with
      | lib_call l f args =>
          if is_plot_lib l && String.eqb f fn
          then Some (filter is_array args)
          else None
      | _ => None
      end
  end.

(** *** The flow of values in the two notebooks *)

(** The page opened is the one of the user the login reported, and what is
    displayed is the script made for it. *)
Definition login_flow (T : list exchange) (ex : exchange) : Prop :=
  (forall text, javascript ex = Some text ->
     exists auth username,
       In (Exchange (earthaccess_login "interactive" true) (inr auth)) T
       /\ In (Exchange (shell "./setup_dodsrc.sh") (inr tt)) T
       /\ In (Exchange (getattr_str auth "username") (inr username)) T
       /\ text = "window.open(" ++ LoginNotebook.dquote
                 ++ ("https://urs.earthdata.nasa.gov/users/" ++ username
                     ++ "/authorized_apps")
                 ++ LoginNotebook.dquote ++ ");")
  /\ (forall js, displayed ex = Some js ->
        exists text,
          In (Exchange (lib_call IPython "display.Javascript" [VStr text])
                       (inr js)) T).

(** The names of the variables whose values the notebook reads. *)
Definition variables_read : list string :=
  ["time"; "lat"; "lon"; "sea_surface_temperature"].

(** A dataset is opened only after the login returned, and it is the DAP4
    URL of the service; values are requested only from a variable of that
    dataset, and only from one of [variables_read]. *)
Definition request_flow (T : list exchange) (ex : exchange) : Prop :=
  (forall url, opened ex = Some url ->
     url = Url.original_service_url
     /\ exists auth,
          In (Exchange (earthaccess_login "interactive" true) (inr auth)) T)
  /\ (forall v, requested ex = Some v ->
        exists pydap_ds name,
          In name variables_read
          /\ In (Exchange (open_url Url.original_service_url) (inr pydap_ds)) T
          /\ In (Exchange (getattr pydap_ds name) (inr v)) T).

(** [arr] is what [.data[:]] returned for the variable [name] of a dataset
    opened in [T]. *)
Definition read_from (T : list exchange) (name : string)
           (arr : ndarray scalar) : Prop :=
  exists pydap_ds v,
    In (Exchange (open_url Url.original_service_url) (inr pydap_ds)) T
    /\ In (Exchange (getattr pydap_ds name) (inr v)) T
    /\ In (Exchange (var_data v) (inr arr)) T.

(** [arrays] are coordinate arrays as read, [x] first and [y] second, and
    the sea-surface temperature as read, squeezed, converted, masked and
    scaled, the squeeze having left it an axis. *)
Definition plots (T : list exchange) (x y : string) (arrays : list value)
  : Prop :=
  exists xs ys sst,
    read_from T x xs
    /\ read_from T y ys
    /\ read_from T "sea_surface_temperature" sst
    /\ shape (squeeze sst) <> []
    /\ arrays = [VArr xs; VArr ys; VArr32 (Sst.scaled_sst (Sst.prepare sst))].

(** [plt.pcolormesh] is given the latitudes first, [ax.pcolormesh] the
    longitudes first. *)
Definition plot_flow (T : list exchange) (ex : exchange) : Prop :=
  (forall arrays, plotted_by "pyplot.pcolormesh" ex = Some arrays ->
                  plots T "lat" "lon" arrays)
  /\ (forall arrays, plotted_by "GeoAxes.pcolormesh" ex = Some arrays ->
                     plots T "lon" "lat" arrays).

End Transcript.

(* ================================================================== *)
(** ** The set-up script and the files it touches *)

Module Dodsrc.
Import PyStr Notebook.

(** The files of a machine: what is stored under a path, line by line. *)
Definition files : Type := string -> option (list string).


Definition write (fs : files) (path : string) (lines : list string)
  : files :=
  fun p => if String.eqb p path then Some lines else fs p.

(** [~/.dodsrc], and the "one important line" of the notebook's text,
    [HTTP.NETRC=/<your home directory>/.netrc]. *)
Definition dodsrc (home : string) : string := home ++ "/.dodsrc".

Definition netrc_line (home : string) : string :=
  "HTTP.NETRC=" ++ home ++ "/.netrc".

(** A line that sets [HTTP.NETRC]. *)
Definition sets_netrc (line : string) : bool :=
  startswith line "HTTP.NETRC=".

(** Modelled from the spec: the shell script [setup_dodsrc.sh], which is
    not among the sources.  The design notes call it the "shell-script
    generation of a dotfile"; the notebook says of it that it makes the
    file [~/.dodsrc] with the line above, "making and/or editing
    [~/.dodsrc] only if needed", and records what it printed where the
    file was there already: "Found an existing ~/.dodsrc file... and it
    has HTTP.NETRC set", "The ~/.dodsrc file was not modified". *)
Definition setup_dodsrc (home : string) (fs : files) : files :=
  match fs (dodsrc home) with
  | None => write fs (dodsrc home) [netrc_line home]
  | Some lines =>
      if existsb sets_netrc lines then fs
      else write fs (dodsrc home) (lines ++ [netrc_line home])%list
  end.



End Dodsrc.

(* ================================================================== *)
(** ** Facts about [find] and [replace] *)

Section PyStrFacts.
Import PyStr.

Lemma startswith_app (s p : string) :
  startswith s p = true <-> exists t, s = p ++ t.
Proof.
  unfold startswith. revert s.
  induction p as [|c p IH]; intros s; simpl.
  - split; [intros _; now exists s | now destruct s].
  - destruct s as [|d s]; simpl.
    + split; [discriminate | intros [t Ht]; discriminate].
    + destruct (Ascii.ascii_dec c d) as [->|Hne].
      * rewrite IH. split; intros [t Ht]; exists t; congruence.
      * split; [discriminate | intros [t Ht]; congruence].
Qed.

Lemma drop_app (p t : string) : drop (String.length p) (p ++ t) = t.
Proof. induction p; simpl; auto. Qed.

Lemma startswith_drop (s p : string) :
  startswith s p = true -> s = p ++ drop (String.length p) s.
Proof.
  intros H. apply startswith_app in H as [t ->]. now rewrite drop_app.
Qed.

Lemma find_from_range (sub s : string) (i : Z) :
  find_from s sub i = -1 \/ i <= find_from s sub i.
Proof.
  revert i. induction s as [|c s IH]; intros i; simpl.
  - destruct (startswith "" sub); [right; lia | now left].
  - destruct (startswith (String c s) sub); [right; lia|].
    destruct (IH (i + 1)); [now left | right; lia].
Qed.

Lemma find_zero_startswith (s sub : string) :
  find s sub = 0 <-> startswith s sub = true.
Proof.
  unfold find. destruct s as [|c s]; simpl.
  - destruct (startswith "" sub); split; auto; discriminate.
  - destruct (startswith (String c s) sub); [tauto|].
    split; [|discriminate].
    intros H. exfalso. destruct (find_from_range sub s 1); lia.
Qed.

Lemma find_from_split (sub s : string) (i : Z) :
  0 <= i ->
  find_from s sub i = -1 <-> split_first s sub = None.
Proof.
  revert i. induction s as [|c s IH]; intros i Hi; simpl.
  - destruct (startswith "" sub); split; (lia || discriminate || auto).
  - destruct (startswith (String c s) sub).
    + split; (lia || discriminate).
    + rewrite (IH (i + 1)) by lia.
      destruct (split_first s sub) as [[pre post]|]; split;
        (discriminate || auto).
Qed.

Lemma contains_false_split (s sub : string) :
  contains s sub = false <-> split_first s sub = None.
Proof.
  unfold contains, find. rewrite <- (find_from_split sub s 0) by lia.
  destruct (find_from_range sub s 0); split; intros; lia.
Qed.

Lemma split_first_some (sub s pre post : string) :
  split_first s sub = Some (pre, post) ->
  s = pre ++ sub ++ post
  /\ forall pre' post', s = pre' ++ sub ++ post' ->
                        (String.length pre <= String.length pre')%nat.
Proof.
  revert pre post. induction s as [|c s IH]; intros pre post; simpl.
  - destruct (startswith "" sub) eqn:E; [|discriminate].
    intros [= <- <-]. split; [|intros; simpl; lia].
    exact (startswith_drop _ _ E).
  - destruct (startswith (String c s) sub) eqn:E.
    + intros [= <- <-]. split; [|intros; simpl; lia].
      exact (startswith_drop _ _ E).
    + destruct (split_first s sub) as [[pre0 post0]|] eqn:E0; [|discriminate].
      intros [= <- <-]. destruct (IH _ _ eq_refl) as [Hs Hmin].
      split; [simpl; congruence|].
      intros [|d pre'] post' H'.
      * exfalso. simpl in H'.
        assert (startswith (String c s) sub = true) as X
            by (apply startswith_app; eauto).
        congruence.
      * simpl in H'. injection H' as _ H'.
        specialize (Hmin _ _ H'). simpl. lia.
Qed.

Lemma split_first_none (sub s : string) :
  split_first s sub = None ->
  forall pre post, s <> pre ++ sub ++ post.
Proof.
  induction s as [|c s IH]; simpl.
  - destruct (startswith "" sub) eqn:E; [discriminate|].
    intros _ pre post H. destruct pre; simpl in H.
    + assert (startswith "" sub = true) as X
          by (apply startswith_app; eauto).
      congruence.
    + discriminate.
  - destruct (startswith (String c s) sub) eqn:E; [discriminate|].
    destruct (split_first s sub) as [[pre0 post0]|] eqn:E0; [discriminate|].
    intros _ [|d pre] post H; simpl in H.
    + assert (startswith (String c s) sub = true) as X
          by (apply startswith_app; eauto).
      congruence.
    + injection H as _ H. exact (IH eq_refl _ _ H).
Qed.

(** [replace _ old new 1] in the words of [first_replaced]. *)
Lemma replace_once_first_replaced (u old new : string) :
  Url.first_replaced u old new (replace u old new 1).
Proof.
  unfold Url.first_replaced, Url.occurs_after. simpl.
  destruct (split_first u old) as [[pre post]|] eqn:E.
  - right. exists pre, post.
    destruct (split_first_some _ _ _ _ E) as [Hu Hmin].
    repeat split; auto.
    intros pre' [post' H']. eauto.
  - left. split; auto.
    intros pre [post H]. exact (split_first_none _ _ E _ _ H).
Qed.

Lemma replace_absent (u old new : string) (n : nat) :
  contains u old = false -> replace u old new n = u.
Proof.
  intros H. apply contains_false_split in H.
  destruct n; simpl; [reflexivity | now rewrite H].
Qed.

End PyStrFacts.

(* ================================================================== *)
(** ** The URL-construction cell: properties *)

Section UrlFacts.
Import PyStr Url.

Lemma append_inv_head (p a b : string) : p ++ a = p ++ b -> a = b.
Proof. induction p; simpl; intros H; [assumption | injection H; auto]. Qed.

Lemma begins_with_startswith (u p : string) :
  begins_with u p <-> startswith u p = true.
Proof. unfold begins_with. symmetry. apply startswith_app. Qed.

Lemma dap4_url_https (u : string) :
  startswith u "https" = true ->
  dap4_url u = replace u "https://" "dap4://" 1.
Proof.
  intros H. unfold dap4_url.
  apply find_zero_startswith in H. now rewrite H.
Qed.

Lemma dap4_url_other (u : string) :
  startswith u "https" = false ->
  dap4_url u = replace u "http://" "dap4://" 1.
Proof.
  intros H. unfold dap4_url.
  destruct (find u "https" =? 0) eqn:E; [|reflexivity].
  apply Z.eqb_eq, find_zero_startswith in E. congruence.
Qed.

(** A single replacement leaves the text as it was only if there was
    nothing to replace. *)
Lemma replace_once_fixed (u old new : string) (c d : ascii) (o n : string) :
  old = String c o -> new = String d n -> c <> d ->
  replace u old new 1 = u <-> contains u old = false.
Proof.
  intros -> -> Hcd. split; [|apply replace_absent].
  intros H. apply contains_false_split. simpl in H.
  destruct (split_first u (String c o)) as [[pre post]|] eqn:E; [|reflexivity].
  exfalso. apply split_first_some in E as [Hu _].
  subst u. apply append_inv_head in H.
  simpl in H. congruence.
Qed.

Lemma dap4_url_fixed_point (v : string) :
  dap4_url v = v <-> contains v (scheme_sought v) = false.
Proof.
  unfold scheme_sought.
  destruct (startswith v "https") eqn:E.
  - rewrite (dap4_url_https _ E).
    eapply replace_once_fixed; [reflexivity | reflexivity | discriminate].
  - rewrite (dap4_url_other _ E).
    eapply replace_once_fixed; [reflexivity | reflexivity | discriminate].
Qed.

(** C1.  The URL cell rewrites the protocol scheme: [find("https") == 0]
    holds exactly for the URLs that begin with "https"; for those the
    result is the URL with only its first "https://" replaced by
    "dap4://", for every other URL it is the URL with only its first
    "http://" replaced by "dap4://"; the text before and after the
    replaced occurrence is the URL's own. *)
Theorem dap4_url_rewrites_scheme (u : string) :
  (find u "https" = 0 <-> begins_with u "https")
  /\ (begins_with u "https" ->
      first_replaced u "https://" "dap4://" (dap4_url u))
  /\ (~ begins_with u "https" ->
      first_replaced u "http://" "dap4://" (dap4_url u)).
Proof.
  split; [|split].
  - rewrite begins_with_startswith. apply find_zero_startswith.
  - intros H. apply begins_with_startswith in H.
    rewrite (dap4_url_https _ H). apply replace_once_first_replaced.
  - intros H. rewrite begins_with_startswith in H.
    apply not_true_is_false in H.
    rewrite (dap4_url_other _ H). apply replace_once_first_replaced.
Qed.

Lemma dap4_url_rewrites_scheme_witness :
  first_replaced "https://opendap.earthdata.nasa.gov/x" "https://" "dap4://"
                 (dap4_url "https://opendap.earthdata.nasa.gov/x")
  /\ first_replaced "http://test.opendap.org/x" "http://" "dap4://"
                    (dap4_url "http://test.opendap.org/x").
Proof.
  split.
  - apply (proj1 (proj2 (dap4_url_rewrites_scheme _))).
    exists "://opendap.earthdata.nasa.gov/x". reflexivity.
  - apply (proj2 (proj2 (dap4_url_rewrites_scheme _))).
    intros [t Ht]. discriminate Ht.
Defined.

Example dap4_url_of_https :
  dap4_url "https://opendap.earthdata.nasa.gov/x"
  = "dap4://opendap.earthdata.nasa.gov/x".
Proof. reflexivity. Qed.

Example dap4_url_of_http :
  dap4_url "http://test.opendap.org/x" = "dap4://test.opendap.org/x".
Proof. reflexivity. Qed.

(** The URL the notebook itself passes is a [dap4://] URL already. *)
Example dap4_url_of_notebook_url :
  dap4_url original_service_url = original_service_url
  /\ dap4_url test_service_url = test_service_url.
Proof. split; reflexivity. Qed.

(** C7, as stated, fails: a URL that carries a second URL has that one
    rewritten by a second application. *)
Lemma dap4_url_not_idempotent :
  dap4_url (dap4_url "https://host/redirect?url=http://other/x")
  <> dap4_url "https://host/redirect?url=http://other/x".
Proof. vm_compute. discriminate. Qed.

(** C7, amended.  The cell returns a URL unchanged exactly when the URL
    does not contain the scheme text the cell looks for ("https://" when
    the URL begins with "https", "http://" otherwise); so applying the
    cell to its own output returns that output unchanged exactly when the
    output contains no such text.  In particular a URL that begins with
    "dap4://" and contains no "http://" is returned as given. *)
Theorem dap4_url_idempotent_iff (u : string) :
  (dap4_url (dap4_url u) = dap4_url u
   <-> contains (dap4_url u) (scheme_sought (dap4_url u)) = false)
  /\ (begins_with u "dap4://" -> contains u "http://" = false ->
      dap4_url u = u).
Proof.
  split; [apply dap4_url_fixed_point|].
  intros [t ->] H. apply dap4_url_fixed_point. exact H.
Qed.

Lemma dap4_url_idempotent_iff_witness :
  dap4_url (dap4_url "https://opendap.earthdata.nasa.gov/x")
  = dap4_url "https://opendap.earthdata.nasa.gov/x"
  /\ dap4_url original_service_url = original_service_url.
Proof.
  split.
  - apply (proj1 (dap4_url_idempotent_iff _)). reflexivity.
  - apply (proj2 (dap4_url_idempotent_iff original_service_url)).
    + eexists. reflexivity.
    + reflexivity.
Defined.

End UrlFacts.

(* ================================================================== *)
(** ** float32 comparison and multiplication *)

Section F32Facts.
Import F32.

Lemma SFcompare_antisym (x y : spec_float) :
  SFcompare y x = option_map CompOpp (SFcompare x y).
Proof.
  destruct x as [sx|sx| |sx mx ex], y as [sy|sy| |sy my ey];
    cbn [SFcompare option_map];
    try reflexivity;
    try (destruct sx; reflexivity);
    try (destruct sy; reflexivity);
    try (destruct sx, sy; reflexivity).
  f_equal. rewrite (Z.compare_antisym ex ey).
  assert (Hm : Pos.compare_cont Eq my mx
               = CompOpp (Pos.compare_cont Eq mx my))
    by (rewrite Pos.compare_cont_antisym; reflexivity).
  rewrite Hm.
  destruct sx, sy; try reflexivity;
    destruct (ex ?= ey); cbn [CompOpp]; try reflexivity;
    now rewrite CompOpp_involutive.
Qed.

Lemma SFcompare_None (x y : spec_float) :
  SFcompare x y = None -> isnan x = true \/ isnan y = true.
Proof.
  destruct x as [sx|sx| |sx mx ex], y as [sy|sy| |sy my ey]; simpl;
    try discriminate; auto.
Qed.

(** [c <= x] excludes [x < c]. *)
Lemma leb_not_ltb (c x : float32) : leb c x = true -> ltb x c = false.
Proof.
  unfold leb, ltb, SFleb, SFltb. rewrite (SFcompare_antisym c x).
  destruct (SFcompare c x) as [[]|]; simpl; congruence.
Qed.

(** Among numbers, not [x < c] is [c <= x]. *)
Lemma not_ltb_leb (c x : float32) :
  isnan c = false -> isnan x = false -> ltb x c = false -> leb c x = true.
Proof.
  unfold leb, ltb, SFleb, SFltb. intros Hc Hx.
  rewrite (SFcompare_antisym x c).
  destruct (SFcompare x c) as [[]|] eqn:E; simpl; try congruence.
  destruct (SFcompare_None _ _ E); congruence.
Qed.

Lemma mul_comm (x y : float32) : mul x y = mul y x.
Proof.
  unfold mul.
  destruct x as [sx|sx| |sx mx ex], y as [sy|sy| |sy my ey]; simpl;
    try reflexivity;
    try (rewrite (xorb_comm sx sy); reflexivity).
  rewrite (xorb_comm sx sy), (Pos.mul_comm mx my), (Z.add_comm ex ey).
  reflexivity.
Qed.

End F32Facts.

(* ================================================================== *)
(** ** ndarray facts *)

Section NpFacts.
Import Np.

Lemma getitem_elementwise {A B} (f : A -> B) (a : ndarray A) (idx : list Z) :
  getitem (elementwise f a) idx = option_map f (getitem a idx).
Proof.
  unfold getitem, elementwise. simpl.
  destruct (ravel (shape a) idx 0); [|reflexivity].
  apply nth_error_map.
Qed.

Lemma norm_index_range (d i i' : Z) :
  norm_index d i = Some i' -> 0 <= i' < d.
Proof.
  unfold norm_index.
  destruct ((0 <=? i) && (i <? d)) eqn:E1.
  - intros [= <-]. apply andb_true_iff in E1. lia.
  - destruct ((- d <=? i) && (i <? 0)) eqn:E2; [|discriminate].
    intros [= <-]. apply andb_true_iff in E2. lia.
Qed.

Lemma norm_index_defined (d i : Z) :
  - d <= i < d -> exists i', norm_index d i = Some i'.
Proof.
  intros H. unfold norm_index.
  destruct ((0 <=? i) && (i <? d)) eqn:E1; [eauto|].
  destruct ((- d <=? i) && (i <? 0)) eqn:E2; [eauto|].
  exfalso. apply andb_false_iff in E1, E2. lia.
Qed.

End NpFacts.

(* ================================================================== *)
(** ** The slicing and scaling cells: properties *)

Section SstFacts.
Import F32 Np Sst.

(** C9.  [np.squeeze] on an array of shape (1, 2400, 2400) gives an array
    of shape (2400, 2400); the element at [i][j] is the element the
    original has at [0][i][j], for all indices (negative ones counting
    from the end, and both sides raising [IndexError] together outside the
    array), every index inside the array does select an element, and the
    number of elements is unchanged. *)
Theorem squeeze_drops_time_axis {A : Type} (a : ndarray A) :
  shape a = [1; 2400; 2400] ->
  well_formed a = true ->
  shape (squeeze a) = [2400; 2400]
  /\ (forall i j, getitem (squeeze a) [i; j] = getitem a [0; i; j])
  /\ (forall i j, -2400 <= i < 2400 -> -2400 <= j < 2400 ->
                  exists x, getitem (squeeze a) [i; j] = Some x)
  /\ size (squeeze a) = size a
  /\ List.length (data (squeeze a)) = List.length (data a).
Proof.
  intros Hs Hwf.
  assert (Hlen : Z.of_nat (List.length (data a)) = 5760000).
  { unfold well_formed, size in Hwf. rewrite Hs in Hwf.
    apply andb_true_iff in Hwf as [_ Hwf]. apply Z.eqb_eq in Hwf.
    exact Hwf. }
  assert (Hsq : shape (squeeze a) = [2400; 2400])
    by (unfold squeeze; simpl; rewrite Hs; reflexivity).
  assert (Hget : forall i j, getitem (squeeze a) [i; j] = getitem a [0; i; j]).
  { intros i j. unfold getitem. rewrite Hsq, Hs.
    cbn [ravel]. replace (norm_index 1 0) with (Some 0) by reflexivity.
    replace (0 * 1 + 0) with 0 by reflexivity. reflexivity. }
  repeat split; auto.
  - intros i j Hi Hj. unfold getitem. rewrite Hsq. cbn [ravel].
    destruct (norm_index_defined 2400 i Hi) as [i' Ei].
    destruct (norm_index_defined 2400 j Hj) as [j' Ej].
    rewrite Ei, Ej.
    apply norm_index_range in Ei, Ej.
    destruct (nth_error (data (squeeze a)) (Z.to_nat ((0 * 2400 + i') * 2400 + j')))
      as [x|] eqn:E; [eauto|].
    exfalso. apply nth_error_None in E. simpl in E. lia.
  - unfold size. now rewrite Hsq, Hs.
Qed.

Lemma squeeze_drops_time_axis_witness :
  let a := mk_ndarray [1; 2400; 2400] (repeat (SInt 0) (Z.to_nat 5760000)) in
  getitem (squeeze a) [17; -1] = getitem a [0; 17; -1]
  /\ exists x, getitem (squeeze a) [17; -1] = Some x.
Proof.
  intros a.
  assert (Hwf : well_formed a = true).
  { unfold well_formed, a, size. cbn [shape data].
    rewrite repeat_length, Z2Nat.id by lia. reflexivity. }
  destruct (squeeze_drops_time_axis a eq_refl Hwf) as (_ & Hget & Hdef & _).
  split; [apply Hget | apply Hdef; lia].
Defined.

(** The same on the small array of [Env.sample], by evaluation. *)
Example squeeze_sample :
  squeeze Env.sample
  = mk_ndarray [2; 2] [SInt (-32768); SInt 1513; SInt 1345; SInt (-32768)]
  /\ getitem (squeeze Env.sample) [1; 0] = Some (SInt 1345)
  /\ getitem Env.sample [0; 1; 0] = Some (SInt 1345)
  /\ getitem (squeeze Env.sample) [-1; -2] = Some (SInt 1345)
  /\ getitem (squeeze Env.sample) [2; 0] = None.
Proof. repeat split. Qed.

Lemma threshold32_value : threshold32 = S754_finite true 16384000 (-9).
Proof. reflexivity. Qed.

Lemma holds_from_spec (f : Z -> bool) (n : nat) :
  forall z, holds_from f z n = true ->
  forall k, z <= k < z + Z.of_nat n -> f k = true.
Proof.
  induction n as [|n IH]; intros z H k Hk; [lia|].
  cbn [holds_from] in H. apply andb_true_iff in H as [H0 H].
  destruct (Z.eq_dec k z) as [->|Hne]; [exact H0|].
  apply (IH (z + 1) H). lia.
Qed.

(** On 16-bit integers the float32 comparison is the integer one. *)
Lemma int16_ltb_threshold (z : Z) :
  -32768 <= z <= 32767 ->
  ltb (of_int z) threshold32 = (z <? fill_threshold).
Proof.
  intros H. apply eqb_prop.
  apply (holds_from_spec
           (fun k => Bool.eqb (ltb (of_int k) threshold32)
                              (k <? fill_threshold))
           (Pos.to_nat 65536) (-32768)).
  - vm_compute. reflexivity.
  - lia.
Qed.

(** C8.  After [sst[sst < -32000] = np.nan] the shape is unchanged, every
    element that was less than -32000 is NaN (the fill value -32768 is
    such an element), every element that was at least -32000 is
    unchanged, and every element that is not NaN is at least -32000.
    On the 16-bit integers the variable holds, less than -32000 in float32
    is less than -32000. *)
Theorem mask_fill_replaces_fill_values (sst : ndarray float32) :
  shape (mask_fill sst) = shape sst
  /\ List.length (data (mask_fill sst)) = List.length (data sst)
  /\ (forall idx x, getitem sst idx = Some x ->
        (ltb x threshold32 = true ->
         getitem (mask_fill sst) idx = Some nan)
        /\ (leb threshold32 x = true ->
            getitem (mask_fill sst) idx = Some x))
  /\ ltb (of_int FillValue) threshold32 = true
  /\ (forall idx y, getitem (mask_fill sst) idx = Some y ->
        isnan y = false -> leb threshold32 y = true)
  /\ (forall z, -32768 <= z <= 32767 ->
        ltb (of_int z) threshold32 = (z <? -32000)).
Proof.
  unfold mask_fill, setitem_where_lt. fold threshold32.
  split; [reflexivity|]. split; [apply length_map|].
  split; [|split; [reflexivity|split]].
  - intros idx x Hx. rewrite getitem_elementwise, Hx. simpl. split.
    + intros Hlt. now rewrite Hlt.
    + intros Hle. now rewrite (leb_not_ltb _ _ Hle).
  - intros idx y. rewrite getitem_elementwise.
    destruct (getitem sst idx) as [x|]; [|discriminate].
    simpl. destruct (ltb x threshold32) eqn:E.
    + intros [= <-]. discriminate.
    + intros [= <-] Hy. now apply not_ltb_leb.
  - exact int16_ltb_threshold.
Qed.

Lemma mask_fill_replaces_fill_values_witness :
  let sst := astype_float32 (squeeze Env.sample) in
  getitem (mask_fill sst) [0; 0] = Some nan
  /\ getitem (mask_fill sst) [0; 1] = Some (of_int 1513)
  /\ leb threshold32 (of_int 1513) = true.
Proof.
  intros sst.
  destruct (mask_fill_replaces_fill_values sst) as (_ & _ & H & _ & Hge & _).
  split; [|split].
  - apply (proj1 (H [0; 0] (of_int (-32768)) eq_refl)). reflexivity.
  - apply (proj2 (H [0; 1] (of_int 1513) eq_refl)). reflexivity.
  - apply (Hge [0; 1] (of_int 1513)); reflexivity.
Defined.

Lemma coefficients_nearest :
  F64.nearest 1 100 scale_factor = true
  /\ F64.nearest 27314999999999998 100000000000000 add_offset = true.
Proof. split; vm_compute; reflexivity. Qed.

Lemma coefficients_values :
  scale_factor = S754_finite false 5764607523034235 (-59)
  /\ add_offset = S754_finite false 4805305618032230 (-44)
  /\ scale_factor32 = S754_finite false 10737418 (-30)
  /\ add_offset32 = S754_finite false 8950579 (-15).
Proof. repeat split. Qed.

(** C2, as stated, fails: the array does not hold exactly
    [0.01 * x + 273.14999999999998].  Where the masked array holds 1513, a
    value of the notebook's own output, the scaled array holds
    [9446359 * 2^-15]; that is not the number 288.27999999999998, and it
    is not what Python's own float arithmetic makes of the expression
    either. *)
Lemma scaled_sst_not_exact :
  let sst := mk_ndarray [1] [of_int 1513] in
  ~ Pixel.holds_exactly sst (scaled_sst sst).
Proof.
  intros sst H.
  destruct (H [0] (of_int 1513) 1513 eq_refl eq_refl) as (y & Hy & Hr).
  assert (Ey : y = S754_finite false 9446359 (-15))
    by (vm_compute in Hy; congruence).
  subst y. vm_compute in Hr. discriminate.
Qed.

Example scaled_sst_of_1513 :
  getitem (scaled_sst (mk_ndarray [1] [of_int 1513])) [0]
  = Some (S754_finite false 9446359 (-15))
  /\ S754_finite false 9446359 (-15)
     <> SFadd 53 1024
              (SFmul 53 1024 scale_factor
                     (binary_normalize 53 1024 1513 0 false))
              add_offset.
Proof. split; [reflexivity | vm_compute; discriminate]. Qed.

(** C2, amended.  On an array with at least one axis the scaling is a
    fixed linear transform in float32 arithmetic: the scaled array has the
    shape of the masked one and holds, for the element [x] at every index,
    the float32 sum of the float32 product of [10737418 * 2^-30] with [x]
    and of [8950579 * 2^-15]; these two are the float32 numbers nearest to
    0.01 and to 273.14999999999998; a NaN stays a NaN; and every element
    of the scaled array arises in this way, with these two coefficients. *)
Theorem scaled_sst_float32_linear (sst : ndarray float32) :
  shape sst <> [] ->
  shape (scaled_sst sst) = shape sst
  /\ (forall idx x, getitem sst idx = Some x ->
        getitem (scaled_sst sst) idx
        = Some (SFadd 24 128
                      (SFmul 24 128 (S754_finite false 10737418 (-30)) x)
                      (S754_finite false 8950579 (-15)))
        /\ (x = S754_nan ->
            getitem (scaled_sst sst) idx = Some S754_nan))
  /\ (forall idx y, getitem (scaled_sst sst) idx = Some y ->
        exists x, getitem sst idx = Some x
                  /\ y = SFadd 24 128
                               (SFmul 24 128
                                      (S754_finite false 10737418 (-30)) x)
                               (S754_finite false 8950579 (-15)))
  /\ F32Value.nearest 1 100 (S754_finite false 10737418 (-30)) = true
  /\ F32Value.nearest 27314999999999998 100000000000000
                      (S754_finite false 8950579 (-15)) = true.
Proof.
  intros _.
  assert (Hel : forall idx,
             getitem (scaled_sst sst) idx
             = option_map
                 (fun x => SFadd 24 128
                             (SFmul 24 128
                                    (S754_finite false 10737418 (-30)) x)
                             (S754_finite false 8950579 (-15)))
                 (getitem sst idx)).
  { intros idx. unfold scaled_sst, add_scalar, mul_scalar.
    rewrite !getitem_elementwise.
    destruct (getitem sst idx) as [x|]; [|reflexivity].
    cbn [option_map]. f_equal.
    change (of_float add_offset) with (S754_finite false 8950579 (-15)).
    change (of_float scale_factor) with (S754_finite false 10737418 (-30)).
    unfold add. f_equal. apply mul_comm. }
  split; [reflexivity|]. split; [|split; [|split; reflexivity]].
  - intros idx x Hx. rewrite Hel, Hx. split; [reflexivity|].
    intros ->. reflexivity.
  - intros idx y. rewrite Hel.
    destruct (getitem sst idx) as [x|]; [|discriminate].
    intros [= <-]. now exists x.
Qed.

Lemma scaled_sst_float32_linear_witness :
  let sst := prepare Env.sample in
  getitem (scaled_sst sst) [1; 0]
  = Some (SFadd 24 128
                (SFmul 24 128 (S754_finite false 10737418 (-30))
                       (of_int 1345))
                (S754_finite false 8950579 (-15)))
  /\ getitem (scaled_sst sst) [0; 0] = Some S754_nan.
Proof.
  intros sst.
  destruct (scaled_sst_float32_linear sst ltac:(discriminate))
    as (_ & H & _).
  split.
  - apply (proj1 (H [1; 0] (of_int 1345) eq_refl)).
  - apply (proj2 (H [0; 0] S754_nan eq_refl)). reflexivity.
Defined.

(** The values the notebook printed: 1513 and 1345 scale to the float32
    numbers nearest to 288.28 and 286.6. *)
Example scaled_sst_sample :
  scaled_sst (prepare Env.sample)
  = mk_ndarray [2; 2]
      [nan; of_float (F64.literal 28828 100);
       of_float (F64.literal 2866 10); nan].
Proof. reflexivity. Qed.

End SstFacts.

(* ================================================================== *)
(** ** Running straight-line programs *)

Section RunFacts.
Import Notebook.

Variable World : Type.
Variable env : forall X : Type, call X -> World -> (exn + X) * World.

Lemma run_call_raised {R X} (c : call X) (k : X -> prog R) w e w' :
  answer World env c w = (inl e, w') ->
  run World env (Call c k) w = (inl e, w', [mk_entry (Label c) (Some e)]).
Proof. intros H. cbn [Notebook.run]. now rewrite H. Qed.

Lemma run_call_returned {R X} (c : call X) (k : X -> prog R) w x w' :
  answer World env c w = (inr x, w') ->
  run World env (Call c k) w
  = (outcome World env (k x) w', final World env (k x) w',
     mk_entry (Label c) None :: trace World env (k x) w').
Proof.
  intros H. cbn [Notebook.run]. rewrite H.
  unfold Notebook.outcome, Notebook.final, Notebook.trace.
  now destruct (run World env (k x) w') as [[r w''] t].
Qed.

(** Rewrites the run of a call by the two cases of its answer. *)
Ltac step_call c w :=
  let e := fresh "e" in
  let x := fresh "x" in
  let w' := fresh "w'" in
  let E := fresh "E" in
  destruct (answer World env c w) as [[e|x] w'] eqn:E;
  unfold Notebook.outcome, Notebook.final, Notebook.trace;
  [ rewrite (run_call_raised c _ w e w' E)
  | rewrite (run_call_returned c _ w x w' E) ];
  cbn [fst snd].


Lemma try_free_replays {R} (p : prog R) :
  try_free p -> forall w, replays World env w (trace World env p w) (final World env p w).
Proof.
  induction 1 as [r|X c k _ _ IH]; intros w.
  - constructor.
  - step_call c w.
    + now apply replays_raised.
    + eapply replays_returned; [exact E | apply IH].
Qed.

(** In a log that replays, an entry that raised is the last one, and
    every entry before it returned. *)
Lemma replays_raised_last w t w' :
  replays World env w t w' ->
  forall l e, In (mk_entry l (Some e)) t ->
              exists t0, t = (t0 ++ [mk_entry l (Some e)])%list
                         /\ Forall returned t0.
Proof.
  induction 1 as [w|X c x w w' w'' t Hc _ IH|X c e0 w w' Hc]; intros l e Hin.
  - destruct Hin.
  - destruct Hin as [Heq|Hin]; [discriminate|].
    destruct (IH _ _ Hin) as (t0 & -> & Ht0).
    exists (mk_entry (Label c) None :: t0). split; [reflexivity|].
    constructor; [reflexivity | assumption].
  - destruct Hin as [Heq|[]]. exists []. split; [|constructor].
    simpl. now rewrite Heq.
Qed.

(** The outcome of a straight-line program is an exception exactly when
    a call raised it. *)
Lemma try_free_outcome {R} (p : prog R) :
  try_free p ->
  forall w e, outcome World env p w = inl e
              <-> exists l, In (mk_entry l (Some e)) (trace World env p w).
Proof.
  induction 1 as [r|X c k _ _ IH]; intros w e.
  - unfold Notebook.outcome, Notebook.trace. simpl.
    split; [discriminate | intros [l []]].
  - step_call c w.
    + split.
      * intros [= <-]. eexists. left. reflexivity.
      * intros [l [Heq|[]]]. congruence.
    + rewrite IH. split; intros [l Hl]; exists l.
      * now right.
      * destruct Hl as [Heq|Hl]; [discriminate | assumption].
Qed.

(** One raised exception at most, by the above. *)
Lemma try_free_raised_unique {R} (p : prog R) :
  try_free p ->
  forall w l e l' e',
    In (mk_entry l (Some e)) (trace World env p w) ->
    In (mk_entry l' (Some e')) (trace World env p w) ->
    e = e'.
Proof.
  intros Hp w l e l' e' H H'.
  assert (outcome World env p w = inl e) as X
      by (apply (try_free_outcome p Hp); eauto).
  assert (outcome World env p w = inl e') as X'
      by (apply (try_free_outcome p Hp); eauto).
  congruence.
Qed.

Lemma follows_steps {R} (p : prog R) (l : list step) :
  follows p l ->
  forall w,
    (exists rest, l = (steps (trace World env p w) ++ rest)%list)
    /\ (forall r, outcome World env p w = inr r -> steps (trace World env p w) = l).
Proof.
  induction 1 as [r|X c k l Hc _ IH|X c k s l Hc _ IH]; intros w.
  - unfold Notebook.outcome, Notebook.trace. simpl.
    split; [now exists [] | reflexivity].
  - step_call c w; cbn [steps]; unfold step_of_entry; cbn [issued];
      rewrite Hc.
    + split; [now exists l | discriminate].
    + apply IH.
  - step_call c w; cbn [steps]; unfold step_of_entry; cbn [issued];
      rewrite Hc.
    + split; [now exists l | discriminate].
    + destruct (IH x w') as [[rest Hrest] Hfull].
      split.
      * exists rest. simpl. now rewrite <- Hrest.
      * intros r Hr. now rewrite (Hfull r Hr).
Qed.

End RunFacts.

Section OrderFacts.
Import Notebook.

Lemma nondecreasing_from_in (lo : nat) (l : list step) :
  nondecreasing_from lo l = true ->
  forall s, In s l -> (lo <= rank s)%nat.
Proof.
  revert lo. induction l as [|a l IH]; intros lo H s Hin; [destruct Hin|].
  cbn [nondecreasing_from] in H. apply andb_true_iff in H as [H1 H2].
  apply Nat.leb_le in H1.
  destruct Hin as [->|Hin]; [assumption|].
  specialize (IH _ H2 _ Hin). lia.
Qed.

Lemma nondecreasing_from_app (lo : nat) (l1 l2 : list step) :
  nondecreasing_from lo (l1 ++ l2) = true ->
  exists lo', nondecreasing_from lo' l2 = true.
Proof.
  revert lo. induction l1 as [|a l1 IH]; intros lo H; [eauto|].
  cbn [nondecreasing_from app] in H.
  apply andb_true_iff in H as [_ H]. eauto.
Qed.

Lemma nondecreasing_in_order (l : list step) :
  nondecreasing_from 0 l = true -> in_order l.
Proof.
  intros H l1 a l2 b l3 ->.
  apply nondecreasing_from_app in H as [lo H].
  cbn [nondecreasing_from] in H. apply andb_true_iff in H as [_ H].
  apply (nondecreasing_from_in _ _ H). apply in_or_app. right. now left.
Qed.

Lemma in_order_prefix (l t rest : list step) :
  in_order l -> l = (t ++ rest)%list -> in_order t.
Proof.
  intros H -> l1 a l2 b l3 ->.
  apply (H l1 a l2 b (l3 ++ rest)%list).
  rewrite <- !app_assoc. simpl. rewrite <- !app_assoc. reflexivity.
Qed.

End OrderFacts.

(* ================================================================== *)
(** ** The notebooks: properties *)

Section NotebookFacts.
Import Notebook.

(** Lays a notebook out as its sequence of calls. *)
Ltac unfold_cells :=
  cbv [LoginNotebook.notebook LoginNotebook.cell_login
       LoginNotebook.cell_dodsrc LoginNotebook.cell_def_window_open
       LoginNotebook.cell_approve LoginNotebook.window_open
       PydapNotebook.notebook PydapNotebook.cell_setup
       PydapNotebook.cell_imports PydapNotebook.cell_login
       PydapNotebook.cell_dataset_url PydapNotebook.cell_dap4_url
       PydapNotebook.cell_open_url PydapNotebook.cell_print_ds
       PydapNotebook.cell_shapes PydapNotebook.print_shape
       PydapNotebook.read_all PydapNotebook.cell_time
       PydapNotebook.cell_lat PydapNotebook.cell_lon PydapNotebook.cell_sst
       PydapNotebook.cell_squeeze PydapNotebook.cell_attributes
       PydapNotebook.cell_scale PydapNotebook.cell_plot
       PydapNotebook.add_feature PydapNotebook.cell_map
       bind perform].

Ltac walk_calls :=
  repeat first
    [ apply all_ret
    | apply all_call; [cbn; tauto | intros ?] ].

Ltac walk_steps :=
  repeat first
    [ apply follows_ret
    | apply follows_other; [reflexivity | intros ?]
    | apply follows_step; [reflexivity | intros ?] ].



Lemma login_notebook_try_free : try_free LoginNotebook.notebook.
Proof. unfold try_free. unfold_cells. walk_calls. Qed.

Lemma pydap_notebook_try_free : try_free PydapNotebook.notebook.
Proof. unfold try_free. unfold_cells. walk_calls. Qed.

Lemma pydap_notebook_follows :
  follows PydapNotebook.notebook PydapNotebook.walkthrough.
Proof. unfold_cells. cbv [PydapNotebook.walkthrough repeat app]. walk_steps. Qed.

Lemma astype_answer_inr (a : Np.ndarray Np.scalar) (b : Np.ndarray F32.float32) :
  inr b = astype_answer a -> b = Np.astype_float32 a /\ Np.shape a <> [].
Proof.
  unfold astype_answer, Np.slice_astype_float32, Np.slice_all.
  destruct (Np.shape a); cbn [option_map]; [discriminate|].
  intros [= ->]. split; [reflexivity | discriminate].
Qed.

Lemma prepare_cell_some (a : Np.ndarray Np.scalar) (p : Np.ndarray F32.float32) :
  Sst.prepare_cell a = Some p <->
  p = Sst.prepare a /\ Np.shape (Np.squeeze a) <> [].
Proof.
  unfold Sst.prepare_cell, Sst.prepare, Np.slice_astype_float32,
    Np.slice_all.
  destruct (Np.shape (Np.squeeze a)); cbn [option_map].
  - split; [discriminate | intros [_ H]; now destruct H].
  - split; [intros [= <-]; split; [reflexivity | discriminate]
           | intros [-> _]; reflexivity].
Qed.

(** The two cells between the slice and the plot: when they complete, the
    squeeze has left an axis and they have computed [Sst.scaled_sst] of
    [Sst.prepare]; when the squeeze leaves no axis they do not complete. *)
Lemma cells_compute_scaled_sst
      World (env : forall X, call X -> World -> (exn + X) * World) sst w r :
  outcome World env
          (bind (PydapNotebook.cell_squeeze sst) PydapNotebook.cell_scale) w
  = inr r ->
  Sst.prepare_cell sst = Some (Sst.prepare sst)
  /\ r = Sst.scaled_sst (Sst.prepare sst).
Proof.
  unfold outcome, PydapNotebook.cell_squeeze, PydapNotebook.cell_scale,
    perform.
  cbn [bind run answer].
  repeat match goal with
         | |- context [env ?X ?c ?w] =>
             destruct (env X c w) as [[?|[]] ?]; cbn [fst snd]
         end; try discriminate.
  destruct (astype_answer (Np.squeeze sst)) as [e|b] eqn:E;
    cbn [fst snd]; [discriminate|].
  symmetry in E. apply astype_answer_inr in E as [-> Hne].
  repeat match goal with
         | |- context [env ?X ?c ?w] =>
             destruct (env X c w) as [[?|[]] ?]; cbn [fst snd]
         end; try discriminate.
  intros [= <-]. split; [|reflexivity].
  apply prepare_cell_some. now split.
Qed.

Lemma walkthrough_in_order : in_order PydapNotebook.walkthrough.
Proof. apply nondecreasing_in_order. reflexivity. Qed.

Lemma try_free_propagates World env (p : prog unit) :
  try_free p -> forall w, propagates World env p w.
Proof.
  intros Hp w. unfold propagates. split; [|split]; [assumption | |].
  - now apply try_free_replays.
  - intros e. split.
    + intros He. apply (try_free_outcome World env p Hp) in He as [l Hl].
      destruct (replays_raised_last World env _ _ _
                  (try_free_replays World env p Hp w) l e Hl)
        as (t0 & Ht & Ht0).
      eauto.
    + intros (l & t0 & Ht & _). apply (try_free_outcome World env p Hp).
      exists l. rewrite Ht. apply in_or_app. right. now left.
Qed.

(** C4.  Run from top to bottom in any environment, the PyDAP notebook
    logs in, opens the dataset, slices, scales and plots in this order:
    in the log no step comes before a step of an earlier kind, the steps
    taken are an initial part of the walkthrough (all of it when no call
    raises), and the walkthrough has the login first, then [open_url],
    then the four slices, then the scaling, then the plotting calls. *)
Theorem pydap_notebook_steps_in_order
        World (env : forall X, call X -> World -> (exn + X) * World) w :
  let taken := steps (trace World env PydapNotebook.notebook w) in
  in_order taken
  /\ (exists rest, PydapNotebook.walkthrough = (taken ++ rest)%list)
  /\ (forall r, outcome World env PydapNotebook.notebook w = inr r ->
                taken = PydapNotebook.walkthrough)
  /\ PydapNotebook.walkthrough
     = ([Login; Open] ++ repeat Slice 4 ++ repeat Scale 2
          ++ repeat Plot 23)%list.
Proof.
  intros taken.
  destruct (follows_steps World env _ _ pydap_notebook_follows w)
    as [[rest Hrest] Hfull].
  split; [|split; [|split]].
  - exact (in_order_prefix _ _ _ walkthrough_in_order Hrest).
  - now exists rest.
  - exact Hfull.
  - reflexivity.
Qed.

Lemma pydap_notebook_steps_in_order_witness :
  steps (trace N Env.fresh PydapNotebook.notebook 0%N)
  = PydapNotebook.walkthrough
  /\ in_order (steps (trace N Env.unauthorized PydapNotebook.notebook 0%N)).
Proof.
  split.
  - apply (proj1 (proj2 (proj2
             (pydap_notebook_steps_in_order N Env.fresh 0%N))) tt).
    reflexivity.
  - apply (pydap_notebook_steps_in_order N Env.unauthorized 0%N).
Defined.

(** C5.  Neither notebook contains a [try]; in any environment the log of
    a run is the sequence of calls made, each answered by the
    environment; and the run ends in an exception exactly when a call
    raised that very exception, that call being the last one made and
    all calls before it having returned. *)
Theorem notebooks_propagate_errors
        World (env : forall X, call X -> World -> (exn + X) * World) w :
  propagates World env LoginNotebook.notebook w
  /\ propagates World env PydapNotebook.notebook w.
Proof.
  split; apply try_free_propagates.
  - exact login_notebook_try_free.
  - exact pydap_notebook_try_free.
Qed.

Lemma notebooks_propagate_errors_witness :
  outcome N Env.unauthorized PydapNotebook.notebook 0%N = inl Env.refused.
Proof.
  destruct (notebooks_propagate_errors N Env.unauthorized 0%N)
    as [_ (_ & _ & H)].
  apply H.
  exists (Label (open_url Url.original_service_url)).
  exists (removelast (trace N Env.unauthorized PydapNotebook.notebook 0%N)).
  split; [vm_compute; reflexivity|].
  vm_compute. repeat constructor.
Defined.

(** A program with a [try] does recover: the notebooks' property is one
    of their code, not of every program. *)
Example retry_recovers :
  outcome N Env.unauthorized
          (Env.open_or_none Url.original_service_url) 0%N = inr None
  /\ ~ propagates N Env.unauthorized
         (bind (Env.open_or_none Url.original_service_url)
               (fun _ => Ret tt)) 0%N.
Proof.
  split; [reflexivity|].
  intros (Hfree & _). inversion Hfree.
Qed.

Lemma sets_netrc_line (home : string) :
  Dodsrc.sets_netrc (Dodsrc.netrc_line home) = true.
Proof.
  unfold Dodsrc.sets_netrc, Dodsrc.netrc_line.
  apply startswith_app. now exists (home ++ "/.netrc").
Qed.


Lemma setup_dodsrc_file (home : string) (fs : Dodsrc.files) :
  exists lines,
    Dodsrc.setup_dodsrc home fs (Dodsrc.dodsrc home) = Some lines
    /\ existsb Dodsrc.sets_netrc lines = true
    /\ (forall old, fs (Dodsrc.dodsrc home) = Some old ->
                    exists added, lines = (old ++ added)%list)
    /\ (fs (Dodsrc.dodsrc home) = None ->
        lines = [Dodsrc.netrc_line home]).
Proof.
  unfold Dodsrc.setup_dodsrc, Dodsrc.write.
  destruct (fs (Dodsrc.dodsrc home)) as [old|] eqn:E.
  - destruct (existsb Dodsrc.sets_netrc old) eqn:En.
    + exists old. rewrite E. repeat split; auto; try discriminate.
      intros ? [= <-]. exists []. now rewrite app_nil_r.
    + exists (old ++ [Dodsrc.netrc_line home])%list.
      rewrite String.eqb_refl. repeat split; try discriminate.
      * rewrite existsb_app. cbn [existsb].
        now rewrite sets_netrc_line, orb_true_r.
      * intros ? [= <-]. now exists [Dodsrc.netrc_line home].
  - exists [Dodsrc.netrc_line home]. rewrite String.eqb_refl.
    repeat split; auto; try discriminate.
    cbn [existsb]. now rewrite sets_netrc_line.
Qed.

Lemma setup_dodsrc_not_needed (home : string) (fs : Dodsrc.files)
      (lines : list string) :
  fs (Dodsrc.dodsrc home) = Some lines ->
  existsb Dodsrc.sets_netrc lines = true ->
  Dodsrc.setup_dodsrc home fs = fs.
Proof.
  intros H1 H2. unfold Dodsrc.setup_dodsrc. now rewrite H1, H2.
Qed.




(** The script run twice does what it does once. *)
Example setup_dodsrc_twice (home : string) (fs : Dodsrc.files) :
  Dodsrc.setup_dodsrc home (Dodsrc.setup_dodsrc home fs)
  = Dodsrc.setup_dodsrc home fs.
Proof.
  destruct (setup_dodsrc_file home fs) as (lines & H1 & H2 & _).
  exact (setup_dodsrc_not_needed _ _ _ H1 H2).
Qed.

End NotebookFacts.

(* ================================================================== *)
(** ** Further properties of the URL cell *)

Section UrlMore.
Import PyStr Url.

Lemma startswith_append (p t : string) : startswith (p ++ t) p = true.
Proof. apply startswith_app. now exists t. Qed.

Lemma startswith_append_prefix (p q t : string) :
  startswith p q = true -> startswith (p ++ t) q = true.
Proof.
  intros H. apply startswith_app in H as [r ->].
  apply startswith_app. exists (r ++ t).
  clear. induction q; simpl; [reflexivity | now f_equal].
Qed.

Lemma split_first_at_start (s old : string) :
  startswith s old = true ->
  split_first s old = Some (EmptyString, drop (String.length old) s).
Proof. intros H. destruct s; cbn [split_first]; now rewrite H. Qed.

Lemma replace_once_at_start (old new rest : string) :
  replace (old ++ rest) old new 1 = new ++ rest.
Proof.
  cbn [replace].
  rewrite (split_first_at_start _ _ (startswith_append old rest)), drop_app.
  reflexivity.
Qed.

(** X1.  A URL with the scheme [https://] or [http://] comes out with the
    scheme [dap4://] and the rest of the URL as it was. *)
Theorem dap4_url_of_scheme (rest : string) :
  dap4_url ("https://" ++ rest) = "dap4://" ++ rest
  /\ dap4_url ("http://" ++ rest) = "dap4://" ++ rest.
Proof.
  split.
  - rewrite dap4_url_https.
    + apply replace_once_at_start.
    + apply (startswith_append_prefix "https://" "https" rest). reflexivity.
  - rewrite dap4_url_other.
    + apply replace_once_at_start.
    + reflexivity.
Qed.

End UrlMore.

(* ================================================================== *)
(** ** Further properties of the slicing and scaling cells *)

Section PixelFacts.
Import F32 F32Value Np Sst Pixel.

Lemma lex_lt_trans (e1 e2 e3 : Z) (m1 m2 m3 : positive) :
  match e1 ?= e2 with
  | Lt => Lt | Gt => Gt | Eq => Pos.compare_cont Eq m1 m2
  end = Lt ->
  match e2 ?= e3 with
  | Lt => Lt | Gt => Gt | Eq => Pos.compare_cont Eq m2 m3
  end = Lt ->
  match e1 ?= e3 with
  | Lt => Lt | Gt => Gt | Eq => Pos.compare_cont Eq m1 m3
  end = Lt.
Proof.
  change (Pos.compare_cont Eq) with Pos.compare.
  destruct (Z.compare_spec e1 e2), (Z.compare_spec e2 e3),
    (Z.compare_spec e1 e3); try discriminate; try reflexivity; try lia;
    rewrite ?Pos.compare_lt_iff; lia.
Qed.

Lemma lex_gt_trans (e1 e2 e3 : Z) (m1 m2 m3 : positive) :
  match e1 ?= e2 with
  | Lt => Gt | Gt => Lt | Eq => CompOpp (Pos.compare_cont Eq m1 m2)
  end = Lt ->
  match e2 ?= e3 with
  | Lt => Gt | Gt => Lt | Eq => CompOpp (Pos.compare_cont Eq m2 m3)
  end = Lt ->
  match e1 ?= e3 with
  | Lt => Gt | Gt => Lt | Eq => CompOpp (Pos.compare_cont Eq m1 m3)
  end = Lt.
Proof.
  change (Pos.compare_cont Eq) with Pos.compare.
  destruct (Z.compare_spec e1 e2), (Z.compare_spec e2 e3),
    (Z.compare_spec e1 e3); try discriminate; try reflexivity; try lia;
    destruct (Pos.compare_spec m1 m2), (Pos.compare_spec m2 m3),
      (Pos.compare_spec m1 m3); simpl; try discriminate; try reflexivity; lia.
Qed.

Lemma ltb_trans (x y z : float32) :
  ltb x y = true -> ltb y z = true -> ltb x z = true.
Proof.
  unfold ltb, SFltb.
  destruct x as [sx|sx| |sx mx ex], y as [sy|sy| |sy my ey],
    z as [sz|sz| |sz mz ez]; cbn [SFcompare];
    try discriminate; try reflexivity;
    try (destruct sx; discriminate || reflexivity);
    try (destruct sy; discriminate || reflexivity);
    try (destruct sz; discriminate || reflexivity);
    try (destruct sx, sy; discriminate || reflexivity);
    try (destruct sx, sz; discriminate || reflexivity);
    try (destruct sy, sz; discriminate || reflexivity);
    try (destruct sx, sy, sz; discriminate || reflexivity).
  destruct sx, sy, sz; try discriminate; try reflexivity; intros H1 H2.
  - assert (H := lex_gt_trans ex ey ez mx my mz).
    destruct (match ex ?= ey with Lt => Gt | Eq => _ | Gt => Lt end);
      try discriminate.
    destruct (match ey ?= ez with Lt => Gt | Eq => _ | Gt => Lt end);
      try discriminate.
    now rewrite H.
  - assert (H := lex_lt_trans ex ey ez mx my mz).
    destruct (match ex ?= ey with Lt => Lt | Eq => _ | Gt => Gt end);
      try discriminate.
    destruct (match ey ?= ez with Lt => Lt | Eq => _ | Gt => Gt end);
      try discriminate.
    now rewrite H.
Qed.

Lemma getitem_astype (a : ndarray scalar) (idx : list Z) :
  getitem (astype_float32 a) idx = option_map convert (getitem a idx).
Proof. exact (getitem_elementwise convert a idx). Qed.

Lemma getitem_mask_fill (a : ndarray float32) (idx : list Z) :
  getitem (mask_fill a) idx = option_map mask (getitem a idx).
Proof. exact (getitem_elementwise mask a idx). Qed.

Lemma getitem_scaled_sst (a : ndarray float32) (idx : list Z) :
  getitem (scaled_sst a) idx = option_map scale (getitem a idx).
Proof.
  unfold scaled_sst, add_scalar, mul_scalar.
  rewrite !getitem_elementwise. now destruct (getitem a idx).
Qed.

(** An element through the cells, from the squeezed raw array on. *)
Lemma getitem_pipeline (a : ndarray scalar) (idx : list Z) :
  getitem (scaled_sst (prepare a)) idx
  = option_map (fun v => scale (mask (convert v))) (getitem (squeeze a) idx).
Proof.
  unfold prepare.
  rewrite getitem_scaled_sst, getitem_mask_fill, getitem_astype.
  now destruct (getitem (squeeze a) idx).
Qed.

Lemma int16_checked (z : Z) :
  -32768 <= z <= 32767 -> int16_check z = true.
Proof.
  intros H.
  apply (holds_from_spec int16_check (Pos.to_nat 65536) (-32768));
    [vm_compute; reflexivity | lia].
Qed.

Lemma int16_to_int (z : Z) :
  -32768 <= z <= 32767 -> to_int (of_int z) = Some z.
Proof.
  intros H. apply int16_checked in H. cbv beta zeta delta [int16_check] in H.
  repeat (apply andb_true_iff in H as [H _]).
  destruct (to_int (of_int z)) as [k|]; [|discriminate].
  apply Z.eqb_eq in H. now subst.
Qed.

(** X2.  [sst[:].astype(np.float32)] raises [IndexError] on an array
    without an axis; on every other array it keeps the shape and loses
    nothing on 16-bit data: at every index holding a 16-bit integer the
    converted array holds the float that is this integer. *)
Theorem slice_astype_float32_exact_on_int16 (a : ndarray scalar) :
  (shape a = [] -> slice_astype_float32 a = None)
  /\ (shape a <> [] ->
      exists b,
        slice_astype_float32 a = Some b
        /\ shape b = shape a
        /\ forall idx z,
             -32768 <= z <= 32767 ->
             getitem a idx = Some (SInt z) ->
             exists x, getitem b idx = Some x /\ to_int x = Some z).
Proof.
  unfold slice_astype_float32, slice_all. split.
  - intros ->. reflexivity.
  - intros Hne. exists (astype_float32 a).
    destruct (shape a) as [|d sh] eqn:E; [now destruct Hne|].
    cbn [option_map]. split; [reflexivity|].
    split; [exact E|].
    intros idx z Hz Hget. exists (of_int z).
    rewrite getitem_astype, Hget.
    split; [reflexivity | now apply int16_to_int].
Qed.

Lemma slice_astype_float32_exact_on_int16_witness :
  slice_astype_float32 (mk_ndarray [] [SInt 7]) = None
  /\ exists b,
       slice_astype_float32 Env.sample = Some b
       /\ exists x, getitem b [0; 0; 1] = Some x /\ to_int x = Some 1513.
Proof.
  split.
  - apply (proj1 (slice_astype_float32_exact_on_int16 _)). reflexivity.
  - destruct (proj2 (slice_astype_float32_exact_on_int16 Env.sample)
                    ltac:(discriminate)) as (b & Hb & _ & H).
    exists b. split; [exact Hb|].
    apply (H [0; 0; 1] 1513); [lia | reflexivity].
Defined.

Lemma kelvin_nan_or_finite (z : Z) :
  -32768 <= z <= 32767 ->
  isnan (kelvin z) = (z <? fill_threshold)
  /\ isfinite (kelvin z) = negb (z <? fill_threshold).
Proof.
  intros H. apply int16_checked in H. cbv beta zeta delta [int16_check] in H.
  apply andb_true_iff in H as [H _].
  apply andb_true_iff in H as [H H2].
  apply andb_true_iff in H as [_ H1].
  split; now apply eqb_prop.
Qed.

(** X3.  When the squeeze leaves no axis the squeeze cell raises the
    [IndexError] of [sst[:]] and nothing is scaled.  When the cell
    completes, the array it leaves has the squeezed shape, and through
    squeeze, conversion, masking and scaling a 16-bit raw value comes out
    as NaN exactly when it is below -32000 (the fill value is), and as a
    finite number otherwise: the scaling never overflows and never
    produces a NaN of its own. *)
Theorem pipeline_nan_exactly_below_threshold
        (a : ndarray scalar) (p : ndarray float32) :
  (shape (squeeze a) = [] -> prepare_cell a = None)
  /\ (prepare_cell a = Some p ->
      shape p = shape (squeeze a)
      /\ shape p <> []
      /\ forall idx z,
           -32768 <= z <= 32767 ->
           getitem (squeeze a) idx = Some (SInt z) ->
           exists y, getitem (scaled_sst p) idx = Some y
                     /\ isnan y = (z <? -32000)
                     /\ isfinite y = negb (z <? -32000)).
Proof.
  split.
  - intros H. unfold prepare_cell, slice_astype_float32, slice_all.
    now rewrite H.
  - intros H. apply prepare_cell_some in H as [-> Hne].
    split; [reflexivity|]. split; [exact Hne|].
    intros idx z Hz Hget. exists (kelvin z).
    rewrite getitem_pipeline, Hget.
    split; [reflexivity | now apply kelvin_nan_or_finite].
Qed.

Lemma pipeline_nan_exactly_below_threshold_witness :
  prepare_cell (mk_ndarray [1; 1; 1] [SInt 7]) = None
  /\ (exists y, getitem (scaled_sst (prepare Env.sample)) [0; 0] = Some y
                /\ isnan y = true /\ isfinite y = false)
  /\ (exists y, getitem (scaled_sst (prepare Env.sample)) [0; 1] = Some y
                /\ isnan y = false /\ isfinite y = true).
Proof.
  split; [|split].
  - apply (proj1 (pipeline_nan_exactly_below_threshold
                    _ (mk_ndarray [] []))).
    reflexivity.
  - destruct (proj2 (pipeline_nan_exactly_below_threshold
                       Env.sample (prepare Env.sample)) eq_refl)
      as (_ & _ & H).
    apply (H [0; 0] (-32768)); [lia | reflexivity].
  - destruct (proj2 (pipeline_nan_exactly_below_threshold
                       Env.sample (prepare Env.sample)) eq_refl)
      as (_ & _ & H).
    apply (H [0; 1] 1513); [lia | reflexivity].
Defined.

Lemma kelvin_step (z : Z) :
  -32000 <= z < 32767 -> ltb (kelvin z) (kelvin (z + 1)) = true.
Proof.
  intros H. assert (X : int16_check z = true) by (apply int16_checked; lia).
  cbv beta zeta delta [int16_check] in X. apply andb_true_iff in X as [_ X].
  apply orb_true_iff in X as [X|X]; [|exact X].
  apply orb_true_iff in X as [X|X]; unfold fill_threshold in X; lia.
Qed.

Lemma kelvin_increasing (z1 z2 : Z) :
  -32000 <= z1 -> z1 < z2 -> z2 <= 32767 ->
  ltb (kelvin z1) (kelvin z2) = true.
Proof.
  intros H1 H12 H2.
  replace z2 with (z1 + 1 + Z.of_nat (Z.to_nat (z2 - z1 - 1))) in *
    by (rewrite Z2Nat.id; lia).
  induction (Z.to_nat (z2 - z1 - 1)) as [|n IH].
  - rewrite Z.add_0_r. apply kelvin_step. simpl in H2. lia.
  - apply (ltb_trans _ (kelvin (z1 + 1 + Z.of_nat n))).
    + apply IH; lia.
    + replace (z1 + 1 + Z.of_nat (S n)) with (z1 + 1 + Z.of_nat n + 1) by lia.
      apply kelvin_step. lia.
Qed.

(** X4.  The scaling keeps the order of the raw values and keeps them
    apart: of two 16-bit raw values that are not masked, the larger one
    comes out as the strictly larger temperature. *)
Theorem pipeline_strictly_increasing
        (a : ndarray scalar) (i j : list Z) (z1 z2 : Z) :
  getitem (squeeze a) i = Some (SInt z1) ->
  getitem (squeeze a) j = Some (SInt z2) ->
  -32000 <= z1 -> z1 < z2 -> z2 <= 32767 ->
  exists y1 y2,
    getitem (scaled_sst (prepare a)) i = Some y1
    /\ getitem (scaled_sst (prepare a)) j = Some y2
    /\ ltb y1 y2 = true.
Proof.
  intros Hi Hj H1 H12 H2. exists (kelvin z1), (kelvin z2).
  rewrite !getitem_pipeline, Hi, Hj.
  repeat split. now apply kelvin_increasing.
Qed.

Lemma pipeline_strictly_increasing_witness :
  exists y1 y2,
    getitem (scaled_sst (prepare Env.sample)) [1; 0] = Some y1
    /\ getitem (scaled_sst (prepare Env.sample)) [0; 1] = Some y2
    /\ ltb y1 y2 = true.
Proof.
  apply (pipeline_strictly_increasing Env.sample [1; 0] [0; 1] 1345 1513);
    (reflexivity || lia).
Defined.


Lemma filter_keeps_product (sh : list Z) :
  fold_right Z.mul 1 (filter (fun d => negb (d =? 1)) sh)
  = fold_right Z.mul 1 sh.
Proof.
  induction sh as [|d sh IH]; [reflexivity|]. cbn [filter fold_right].
  destruct (d =? 1) eqn:E; cbn [negb fold_right]; rewrite IH.
  - apply Z.eqb_eq in E. lia.
  - reflexivity.
Qed.

Lemma filter_again {A} (f : A -> bool) (l : list A) :
  filter f (filter f l) = filter f l.
Proof.
  induction l as [|x l IH]; [reflexivity|]. cbn [filter].
  destruct (f x) eqn:E; [|exact IH]. cbn [filter]. now rewrite E, IH.
Qed.

Lemma filter_all {A} (f : A -> bool) (l : list A) :
  forallb f l = true -> filter f l = l.
Proof.
  induction l as [|x l IH]; [reflexivity|]. cbn [forallb filter].
  intros H. apply andb_true_iff in H as [Hx Hl]. now rewrite Hx, IH.
Qed.

Lemma forallb_filter {A} (f g : A -> bool) (l : list A) :
  forallb f l = true -> forallb f (filter g l) = true.
Proof.
  induction l as [|x l IH]; [reflexivity|]. cbn [forallb filter].
  intros H. apply andb_true_iff in H as [Hx Hl].
  destruct (g x); cbn [forallb]; rewrite ?Hx; auto.
Qed.

(** X5.  [np.squeeze] keeps the buffer and the number of elements the
    shape announces, keeps a well-formed array well-formed, does nothing
    more when applied again, and leaves an array without unit axes as it
    is. *)
Theorem squeeze_keeps_elements {A : Type} (a : ndarray A) :
  data (squeeze a) = data a
  /\ size (squeeze a) = size a
  /\ (well_formed a = true -> well_formed (squeeze a) = true)
  /\ squeeze (squeeze a) = squeeze a
  /\ (forallb (fun d => negb (d =? 1)) (shape a) = true -> squeeze a = a).
Proof.
  split; [reflexivity|]. split; [apply filter_keeps_product|].
  split; [|split].
  - unfold well_formed. intros H. apply andb_true_iff in H as [Hs Hn].
    apply andb_true_iff. split.
    + now apply forallb_filter.
    + unfold size, squeeze. cbn [shape data].
      now rewrite filter_keeps_product.
  - unfold squeeze. cbn [shape data]. now rewrite filter_again.
  - intros H. unfold squeeze. rewrite (filter_all _ _ H). now destruct a.
Qed.

Lemma squeeze_keeps_elements_witness :
  well_formed (squeeze Env.sample) = true
  /\ squeeze (mk_ndarray [2; 2] (data Env.sample))
     = mk_ndarray [2; 2] (data Env.sample).
Proof.
  split.
  - apply (proj1 (proj2 (proj2 (squeeze_keeps_elements Env.sample)))).
    reflexivity.
  - apply (proj2 (proj2 (proj2 (proj2 (squeeze_keeps_elements _))))).
    reflexivity.
Defined.

(** X6.  [np.squeeze] is called without an axis, so it drops every unit
    axis, not only the time axis: an array of shape (1, 1, m), a grid of a
    single row, comes out one-dimensional, its elements are found at [j],
    and indexing it with [i][j] is an [IndexError]. *)
Theorem squeeze_single_row {A : Type} (a : ndarray A) (m : Z) :
  shape a = [1; 1; m] -> m <> 1 ->
  shape (squeeze a) = [m]
  /\ (forall j, getitem (squeeze a) [j] = getitem a [0; 0; j])
  /\ (forall i j, getitem (squeeze a) [i; j] = None).
Proof.
  intros Hs Hm.
  assert (Hsq : shape (squeeze a) = [m]).
  { unfold squeeze. cbn [shape]. rewrite Hs. cbn [filter Z.eqb negb].
    apply Z.eqb_neq in Hm. now rewrite Hm. }
  split; [exact Hsq|]. split.
  - intros j. unfold getitem. rewrite Hsq, Hs. cbn [ravel].
    replace (norm_index 1 0) with (Some 0) by reflexivity. reflexivity.
  - intros i j. unfold getitem. rewrite Hsq. cbn [ravel].
    now destruct (norm_index m i).
Qed.

Lemma squeeze_single_row_witness :
  let a := mk_ndarray [1; 1; 2] [SInt 1513; SInt 1345] in
  shape (squeeze a) = [2]
  /\ getitem (squeeze a) [1] = Some (SInt 1345)
  /\ getitem (squeeze a) [0; 1] = None.
Proof.
  intros a.
  destruct (squeeze_single_row a 2 eq_refl ltac:(discriminate))
    as (H1 & H2 & H3).
  split; [exact H1|]. split; [|apply H3].
  rewrite H2. reflexivity.
Defined.

Lemma mask_again (x : float32) : mask (mask x) = mask x.
Proof.
  unfold mask. destruct (ltb x threshold32) eqn:E; [reflexivity|].
  now rewrite E.
Qed.

(** X7.  Masking an array that is masked already changes nothing; an
    element that is NaN before the masking is NaN after it, minus infinity
    becomes NaN and plus infinity is kept. *)
Theorem mask_fill_idempotent (sst : ndarray float32) :
  mask_fill (mask_fill sst) = mask_fill sst
  /\ (forall idx x, getitem sst idx = Some x ->
        (x = nan \/ x = S754_infinity true ->
         getitem (mask_fill sst) idx = Some nan)
        /\ (x = S754_infinity false ->
            getitem (mask_fill sst) idx = Some x)).
Proof.
  split.
  - unfold mask_fill, setitem_where_lt, elementwise. cbn [shape data].
    f_equal. rewrite map_map. apply map_ext. exact mask_again.
  - intros idx x Hx. rewrite getitem_mask_fill, Hx.
    split; [intros [->| ->] | intros ->]; reflexivity.
Qed.

Lemma mask_fill_idempotent_witness :
  let sst := mk_ndarray [3] [nan; S754_infinity true; S754_infinity false] in
  mask_fill (mask_fill sst) = mask_fill sst
  /\ getitem (mask_fill sst) [1] = Some nan
  /\ getitem (mask_fill sst) [2] = Some (S754_infinity false).
Proof.
  intros sst. destruct (mask_fill_idempotent sst) as [H1 H2].
  split; [exact H1|]. split.
  - apply (proj1 (H2 [1] (S754_infinity true) eq_refl)). now right.
  - apply (proj2 (H2 [2] (S754_infinity false) eq_refl)). reflexivity.
Defined.

End PixelFacts.

(* ================================================================== *)
(** ** Transcripts of straight-line programs *)

Section TranscriptFacts.
Import Notebook Transcript.

Variable World : Type.
Variable env : forall X : Type, call X -> World -> (exn + X) * World.

Lemma answer_possible {X : Type} (c : call X) (w : World) :
  possible c (fst (answer World env c w)).
Proof. destruct c; cbn; trivial. Qed.

(** The log of the claims is the transcript without the answers. *)
Lemma transcript_trace {R : Type} (p : prog R) :
  try_free p ->
  forall w, map forget (transcript World env p w) = trace World env p w.
Proof.
  induction 1 as [r|X c k _ _ IH]; intros w; [reflexivity|].
  unfold trace. cbn [run transcript].
  destruct (answer World env c w) as [[e|x] w']; [reflexivity|].
  specialize (IH x w'). unfold trace in IH.
  destruct (run World env (k x) w') as [[r w''] t].
  cbn [map forget snd] in *. now rewrite IH.
Qed.

Lemma justified_transcript {R : Type}
      (J : list exchange -> exchange -> Prop) (p : prog R) :
  monotone J ->
  forall h, justified J h p ->
  Forall (J h) h ->
  forall w, Forall (J (h ++ transcript World env p w)%list)
                   (h ++ transcript World env p w)%list.
Proof.
  intros Hmono h Hj. induction Hj as [h r|X h c k Hnew _ IH]; intros Hh w.
  - cbn [transcript]. now rewrite app_nil_r.
  - cbn [transcript].
    assert (Hp := answer_possible c w).
    destruct (answer World env c w) as [[e|x] w']; cbn [fst] in Hp.
    + apply Forall_app. split.
      * eapply Forall_impl; [|exact Hh]. intros ex. apply Hmono.
      * constructor; [now apply Hnew | constructor].
    + replace (h ++ Exchange c (inr x) :: transcript World env (k x) w')%list
        with ((h ++ [Exchange c (inr x)])
                ++ transcript World env (k x) w')%list
        by (now rewrite <- app_assoc).
      apply (IH x Hp).
      apply Forall_app. split.
      * eapply Forall_impl; [|exact Hh]. intros ex. apply Hmono.
      * constructor; [now apply Hnew | constructor].
Qed.

Lemma justified_run {R : Type}
      (J : list exchange -> exchange -> Prop) (p : prog R) :
  monotone J -> justified J [] p ->
  forall w ex, In ex (transcript World env p w) ->
               J (transcript World env p w) ex.
Proof.
  intros Hmono Hj w.
  apply Forall_forall.
  exact (justified_transcript J p Hmono [] Hj (Forall_nil _) w).
Qed.

End TranscriptFacts.

(** The flows of the two notebooks. *)
Import Notebook Transcript.

Lemma login_flow_monotone : monotone login_flow.
Proof.
  intros h h' ex [H1 H2]. split.
  - intros text Ht. destruct (H1 text Ht) as (auth & u & A & B & C & D).
    exists auth, u. repeat split; try apply in_or_app; auto.
  - intros js Hjs. destruct (H2 js Hjs) as (text & A).
    exists text. apply in_or_app. auto.
Qed.

(** Lays a notebook out as its sequence of calls. *)
Ltac lay_out :=
  cbv [LoginNotebook.notebook LoginNotebook.cell_login
       LoginNotebook.cell_dodsrc LoginNotebook.cell_def_window_open
       LoginNotebook.cell_approve LoginNotebook.window_open
       LoginNotebook.setup_dodsrc
       PydapNotebook.notebook PydapNotebook.cell_setup
       PydapNotebook.cell_imports PydapNotebook.cell_login
       PydapNotebook.cell_dataset_url PydapNotebook.cell_dap4_url
       PydapNotebook.cell_open_url PydapNotebook.cell_print_ds
       PydapNotebook.cell_shapes PydapNotebook.print_shape
       PydapNotebook.read_all PydapNotebook.cell_time
       PydapNotebook.cell_lat PydapNotebook.cell_lon PydapNotebook.cell_sst
       PydapNotebook.cell_squeeze PydapNotebook.cell_attributes
       PydapNotebook.cell_scale PydapNotebook.cell_plot
       PydapNotebook.add_feature PydapNotebook.cell_map
       PydapNotebook.USE_ORIGINAL_SERVICE
       bind perform].

(** Finds an exchange in a history that is written out. *)
Ltac in_history :=
  cbn [In]; solve [repeat first [left; reflexivity | right]].

(** Walks a laid-out program, handing every new exchange to [new]. *)
Ltac walk new :=
  repeat first
    [ apply justified_ret
    | apply justified_call;
      [ intros ? _; cbn [app]; new
      | let x := fresh "x" in
        let Hp := fresh "Hp" in
        intros x Hp; cbn [possible] in Hp;
        first [ injection Hp as ->
              | apply astype_answer_inr in Hp; destruct Hp as [-> ?]
              | clear Hp ];
        try (lazymatch type of x with unit => destruct x end);
        cbn [app]; cbv beta ] ].

Lemma login_notebook_justified :
  justified login_flow [] LoginNotebook.notebook.
Proof.
  lay_out.
  walk ltac:(split; intros ? Hex; cbn in Hex;
             first [ discriminate
                   | injection Hex as <-; do 2 eexists;
                     repeat split; in_history
                   | injection Hex as <-; eexists; in_history ]).
Qed.


Lemma read_from_monotone (h h' : list exchange) name arr :
  read_from h name arr -> read_from (h ++ h')%list name arr.
Proof.
  intros (ds & v & A & B & C). exists ds, v.
  repeat split; apply in_or_app; auto.
Qed.

Lemma request_flow_monotone : monotone request_flow.
Proof.
  intros h h' ex [H1 H2]. split.
  - intros url Hu. destruct (H1 url Hu) as (-> & auth & A).
    split; [reflexivity|]. exists auth. apply in_or_app. auto.
  - intros v Hv. destruct (H2 v Hv) as (ds & name & A & B & C).
    exists ds, name. repeat split; try apply in_or_app; auto.
Qed.

Lemma plots_monotone (h h' : list exchange) x y arrays :
  plots h x y arrays -> plots (h ++ h')%list x y arrays.
Proof.
  intros (xs & ys & sst & A & B & C & D & E).
  exists xs, ys, sst. repeat split; try apply read_from_monotone; auto.
Qed.

Lemma plot_flow_monotone : monotone plot_flow.
Proof.
  intros h h' ex [H1 H2].
  split; intros arrays Ha; apply plots_monotone; auto.
Qed.

Lemma pydap_notebook_requests :
  justified request_flow [] PydapNotebook.notebook.
Proof.
  lay_out.
  walk ltac:(split; intros ? Hex; cbn in Hex;
             first [ discriminate
                   | injection Hex as <-;
                     split; [reflexivity | eexists; in_history]
                   | injection Hex as <-;
                     eexists _, _; split; [|split]; cycle 2;
                     [ in_history | in_history | in_history ] ]).
Qed.

Ltac read_back :=
  unfold read_from; eexists _, _; split; [|split]; cycle 2;
  [ in_history | in_history | in_history ].

(** The arrays of a [pcolormesh] traced back to what was read. *)
Ltac trace_back :=
  unfold plots; eexists _, _, _;
  split; [|split; [|split; [|split]]]; cycle 4;
  [ reflexivity | read_back | read_back | read_back | assumption ].

Lemma pydap_notebook_plots :
  justified plot_flow [] PydapNotebook.notebook.
Proof.
  lay_out.
  walk ltac:(split; intros ? Hex;
             cbn [plotted_by is_plot_lib andb String.eqb Ascii.eqb
                  Bool.eqb filter is_array] in Hex;
             first [ discriminate
                   | injection Hex as <-; trace_back ]).
Qed.

(** X8.  In the Earthdata-Login notebook the page is opened only after the
    login, the set-up script and the look-up of the user name have all
    returned, the page is the authorized-apps page of the user name that
    [auth.username] returned for the object the login returned, and what
    is displayed is the script object made for that page. *)
Theorem login_notebook_opens_users_page
        World (env : forall X, call X -> World -> (exn + X) * World) w ex :
  In ex (transcript World env LoginNotebook.notebook w) ->
  login_flow (transcript World env LoginNotebook.notebook w) ex.
Proof.
  apply justified_run;
    [exact login_flow_monotone | exact login_notebook_justified].
Qed.

Lemma login_notebook_opens_users_page_witness :
  let T := transcript N Env.fresh LoginNotebook.notebook 0%N in
  login_flow T (nth 5 T (Exchange (import "") (inr tt))).
Proof.
  intros T. apply (login_notebook_opens_users_page N Env.fresh 0%N).
  vm_compute. repeat first [left; reflexivity | right].
Defined.

(** X9.  In the PyDAP notebook a dataset is opened only after the login
    returned, and only at the DAP4 URL of the service; values are
    requested only from variables of the dataset so opened, and only from
    [time], [lat], [lon] and [sea_surface_temperature]: the values of
    [wind_speed] are never requested. *)
Theorem pydap_notebook_requests_flow
        World (env : forall X, call X -> World -> (exn + X) * World) w ex :
  In ex (transcript World env PydapNotebook.notebook w) ->
  request_flow (transcript World env PydapNotebook.notebook w) ex.
Proof.
  apply justified_run;
    [exact request_flow_monotone | exact pydap_notebook_requests].
Qed.

Lemma pydap_notebook_requests_flow_witness :
  let T := transcript N Env.fresh PydapNotebook.notebook 0%N in
  request_flow T (nth 44 T (Exchange (import "") (inr tt))).
Proof.
  intros T. apply (pydap_notebook_requests_flow N Env.fresh 0%N).
  vm_compute. repeat first [left; reflexivity | right].
Defined.

(** X10.  Whatever the environment answers, [plt.pcolormesh] is given the
    array that [.data[:]] returned for [lat], then the one it returned for
    [lon], and [ax.pcolormesh] is given them the other way round, [lon]
    first; the third array of both is what [.data[:]] returned for
    [sea_surface_temperature] after the squeeze, which left it an axis,
    the conversion, the masking and the scaling. *)
Theorem pydap_notebook_plots_scaled_sst
        World (env : forall X, call X -> World -> (exn + X) * World) w ex :
  In ex (transcript World env PydapNotebook.notebook w) ->
  plot_flow (transcript World env PydapNotebook.notebook w) ex.
Proof.
  apply justified_run;
    [exact plot_flow_monotone | exact pydap_notebook_plots].
Qed.

Lemma pydap_notebook_plots_scaled_sst_witness :
  let T := transcript N Env.distinct PydapNotebook.notebook 0%N in
  plot_flow T (nth 59 T (Exchange (import "") (inr tt)))
  /\ plot_flow T (nth 83 T (Exchange (import "") (inr tt))).
Proof.
  intros T.
  split; apply (pydap_notebook_plots_scaled_sst N Env.distinct 0%N);
    vm_compute; repeat first [left; reflexivity | right].
Defined.

(** On the machine of [Env.distinct] the two calls get the coordinate
    arrays in opposite orders. *)
Example pcolormesh_orders :
  let T := transcript N Env.distinct PydapNotebook.notebook 0%N in
  option_map (firstn 2)
             (plotted_by "pyplot.pcolormesh"
                         (nth 59 T (Exchange (import "") (inr tt))))
  = Some [VArr (Np.mk_ndarray [1; 2] [Np.SInt 9; Np.SInt (-9)]);
          VArr (Np.mk_ndarray [1; 2] [Np.SInt 10; Np.SInt (-10)])]
  /\ option_map (firstn 2)
                (plotted_by "GeoAxes.pcolormesh"
                            (nth 83 T (Exchange (import "") (inr tt))))
     = Some [VArr (Np.mk_ndarray [1; 2] [Np.SInt 10; Np.SInt (-10)]);
             VArr (Np.mk_ndarray [1; 2] [Np.SInt 9; Np.SInt (-9)])].
Proof. split; vm_compute; reflexivity. Qed.

